(** * Lagrange interpolation of NumAnalMP3 (main.py)

    A shallow embedding of the two interpolation routines of [main.py]:
    [ForexData.lagrange_interpolation] with its date handling, and
    [ForexLagrangeApp.compute_lagrange_polynomial] with [get_points].

    Python values are embedded as they occur in the program: unbounded
    integers as [Z], [float] as IEEE-754 binary64 ([spec_float] with
    precision 53 and exponent bound 1024), [fractions.Fraction] as canonical
    rationals [Qc], [str] as a list of Unicode code points, and sympy
    expressions in the symbol [x] as polynomials over [Qc]. *)

From Stdlib Require Import String Ascii DecimalString.
From Stdlib Require Import ZArith QArith Qabs Qcanon List Bool Lia Permutation.
From Stdlib Require Import Floats.SpecFloat.
Import ListNotations.

Set Implicit Arguments.
Local Open Scope Z_scope.

(** ** Outcomes of a Python call *)

Module Py.

(** The exceptions the modelled statements can raise. *)
Inductive exn : Type :=
| ValueError
| ZeroDivisionError
| OverflowError
| IndexError.

(** The error taxonomy of the specification (section 7).  It is listed so
    that statements about tagged failures can be written down; no statement
    of main.py constructs one. *)
Inductive failure : Type :=
| InvalidDateFormat
| ParseError
| EmptyPointSet
| DuplicateAbscissa
| EmptyInput.

(** A call returns a value, raises an exception, or reports a tagged
    failure.  [Unmodelled] marks operand types outside the fragment of the
    Python and sympy operators that is embedded below. *)
Inductive outcome (A : Type) : Type :=
| Returns (a : A)
| Raises (e : exn)
| Failed (t : failure)
| Unmodelled.

Arguments Raises {A} e.
Arguments Failed {A} t.
Arguments Unmodelled {A}.

Definition bind {A B : Type} (o : outcome A) (k : A -> outcome B) : outcome B :=
  match o with
  | Returns a => k a
  | Raises e => Raises e
  | Failed t => Failed t
  | Unmodelled => Unmodelled
  end.

(** [for x in l: body], threading the variables the body assigns. *)
Fixpoint for_each {S A : Type} (l : list A) (body : S -> A -> outcome S) (s : S)
  : outcome S :=
  match l with
  | [] => Returns s
  | a :: l' => bind (body s a) (for_each l' body)
  end.

(** [l[i]] for a non-negative index. *)
Definition getitem {A : Type} (l : list A) (i : nat) : outcome A :=
  match nth_error l i with
  | Some a => Returns a
  | None => Raises IndexError
  end.

(** [range(n)] *)
Definition range (n : nat) : list nat := seq 0 n.

End Py.

Export Py.

Declare Scope py_scope.
Delimit Scope py_scope with py.
Notation "x <- c ;; k" := (bind c (fun x => k))
  (at level 61, c at next level, right associativity) : py_scope.
Notation "' p <- c ;; k" := (bind c (fun p => k))
  (at level 61, p pattern, c at next level, right associativity) : py_scope.

(** ** Python floats: IEEE-754 binary64 *)

Module Float.

Definition float : Type := spec_float.

Definition prec : Z := 53.
Definition emax : Z := 1024.

Definition fadd : float -> float -> float := SFadd prec emax.
Definition fmul : float -> float -> float := SFmul prec emax.
Definition fdiv : float -> float -> float := SFdiv prec emax.

Definition is_zero (f : float) : bool :=
  match f with
  | S754_zero _ => true
  | _ => false
  end.

Definition is_finite (f : float) : bool :=
  match f with
  | S754_zero _ | S754_finite _ _ _ => true
  | _ => false
  end.

Definition pos_zero : float := S754_zero false.

(** [float(n)] for a Python int (PyLong_AsDouble): the nearest binary64
    value, ties to even; integers that round to 2^1024 or beyond raise
    OverflowError.  The midpoint between the largest finite binary64 value
    and 2^1024 is 2^1024 - 2^970 and rounds up. *)
Definition float_of_int (n : Z) : outcome float :=
  if 2 ^ 1024 - 2 ^ 970 <=? Z.abs n then Raises OverflowError
  else Returns (binary_normalize prec emax n 0 false).

(** [a / b] for two Python ints (long_true_divide): the correctly rounded
    quotient. *)
Definition int_true_divide (a b : Z) : outcome float :=
  match b with
  | Z0 => Raises ZeroDivisionError
  | _ =>
    match a with
    | Z0 => Returns (S754_zero (b <? 0))
    | _ =>
      let q := fdiv (S754_finite (a <? 0) (Z.to_pos (Z.abs a)) 0)
                    (S754_finite (b <? 0) (Z.to_pos (Z.abs b)) 0) in
      if is_finite q then Returns q else Raises OverflowError
    end
  end.

(** [a / b] for two Python floats (float_div). *)
Definition float_truediv (a b : float) : outcome float :=
  if is_zero b then Raises ZeroDivisionError else Returns (fdiv a b).

(** A decimal literal [digits * 10^-scale] read as a float: source literals
    such as [26.5850] and [float("0.1")] are correctly rounded.  Both
    [digits] and [10^scale] are exactly representable for the literals used
    here (fewer than 16 digits, scale at most 22), so the rounded quotient of
    the two is the correctly rounded value of the literal. *)
Definition float_of_decimal (digits : Z) (scale : nat) : float :=
  fdiv (binary_normalize prec emax digits 0 false)
       (binary_normalize prec emax (10 ^ Z.of_nat scale) 0 false).

(** The rational number a finite float denotes (0 for the others). *)
Definition to_Q (f : float) : Q :=
  match f with
  | S754_finite s m e =>
    let v := match e with
             | Z0 => Zpos m # 1
             | Zpos p => (Zpos m * Z.pow_pos 2 p) # 1
             | Zneg p => Zpos m # Pos.pow 2 p
             end in
    if s then Qopp v else v
  | _ => 0%Q
  end.

End Float.

Export Float.


(** ** Polynomials in one variable over the rationals

    Coefficient lists, constant term first.  The operations do not remove
    trailing zero coefficients; [normalize] does. *)

Module Poly.

Local Open Scope Qc_scope.

Definition poly : Type := list Qc.

Definition Qc_eqb (a b : Qc) : bool := Qeq_bool a b.

Fixpoint padd (p q : poly) : poly :=
  match p, q with
  | [], _ => q
  | _, [] => p
  | a :: p', b :: q' => (a + b) :: padd p' q'
  end.

Definition pscale (c : Qc) (p : poly) : poly := map (Qcmult c) p.

Definition psub (p q : poly) : poly := padd p (pscale (- (1)) q).

Fixpoint pmul (p q : poly) : poly :=
  match p with
  | [] => []
  | a :: p' => padd (pscale a q) (0 :: pmul p' q)
  end.

(** The value of the polynomial at [v]. *)
Fixpoint eval (p : poly) (v : Qc) : Qc :=
  match p with
  | [] => 0
  | a :: p' => a + v * eval p' v
  end.

(** The sum of [coefficient_k * v^k], exponent by exponent, starting at
    exponent [k]. *)
Fixpoint sum_of_terms (p : poly) (v : Qc) (k : nat) : Qc :=
  match p with
  | [] => 0
  | a :: p' => a * v ^ k + sum_of_terms p' v (S k)
  end.

(** Canonical form: no zero leading coefficient, the zero polynomial is
    the empty list. *)
Fixpoint normalize (p : poly) : poly :=
  match p with
  | [] => []
  | a :: p' =>
    match normalize p' with
    | [] => if Qc_eqb a 0 then [] else [a]
    | r => a :: r
    end
  end.

Fixpoint poly_eqb (p q : poly) : bool :=
  match p, q with
  | [], [] => true
  | a :: p', b :: q' => Qc_eqb a b && poly_eqb p' q'
  | _, _ => false
  end.

(** Every coefficient is zero. *)
Definition all_zero (p : poly) : Prop := Forall (fun c => c = 0) p.

(** The quotient of [p] by [X - a] (synthetic division). *)
Fixpoint quot (a : Qc) (p : poly) : poly :=
  match p with
  | [] => []
  | _ :: p' =>
    match p' with
    | [] => []
    | _ :: _ => eval p' a :: quot a p'
    end
  end.

End Poly.

Export Poly.

(** ** sympy expressions in the symbol x *)

Module Sympy.

(** An expression built from the symbol [x] and rational numbers with
    [+], [-], [*] and division by a number denotes a polynomial over the
    rationals.  [FloatNum] is a finite sympy Float.  [NonFinite] stands for
    every expression that contains sympy's complex infinity [zoo], an
    infinity or [nan]: dividing by the rational 0 gives [zoo], and [zoo]
    does not cancel. *)
Inductive Expr : Type :=
| Poly (p : poly)
| FloatNum (f : float)
| NonFinite.

(** [symbols('x y')[0]] *)
Definition symbol_x : Expr := Poly [Q2Qc 0; Q2Qc 1].

(** sympify of a Fraction or an int: a sympy Rational. *)
Definition Rational (q : Qc) : Expr := Poly [q].

Definition Integer (z : Z) : Expr := Rational (Q2Qc (inject_Z z)).

(** [Add(a, b)]; arithmetic on sympy Floats is not embedded. *)
Definition sym_add (a b : Expr) : outcome Expr :=
  match a, b with
  | Poly p, Poly q => Returns (Poly (padd p q))
  | FloatNum _, _ | _, FloatNum _ => Unmodelled
  | _, _ => Returns NonFinite
  end.

(** [Mul(a, b)] *)
Definition sym_mul (a b : Expr) : outcome Expr :=
  match a, b with
  | Poly p, Poly q => Returns (Poly (pmul p q))
  | FloatNum _, _ | _, FloatNum _ => Unmodelled
  | _, _ => Returns NonFinite
  end.

(** [Expr.__truediv__] by a rational: [Mul(a, Pow(q, -1))], where
    [Pow(0, -1)] is [zoo]. *)
Definition sym_div (a : Expr) (q : Qc) : outcome Expr :=
  match a with
  | FloatNum _ => Unmodelled
  | NonFinite => Returns NonFinite
  | Poly p => if Qc_eqb q (Q2Qc 0) then Returns NonFinite
              else Returns (Poly (pscale (/ q)%Qc p))
  end.

(** [simplify] of an expression: the polynomial in canonical form. *)
Definition sym_simplify (a : Expr) : Expr :=
  match a with
  | Poly p => Poly (normalize p)
  | _ => a
  end.

(** [a.subs({'x': v})] for an exact rational [v]. *)
Definition subs (a : Expr) (v : Qc) : Expr :=
  match a with
  | Poly p => Poly (normalize [eval p v])
  | _ => a
  end.

(** [sympify(x_val)] for a Python float: a sympy Float has no signed zero,
    so both zeros give the Float zero; nan and the infinities are not
    Floats. *)
Definition sympify_float (x_val : float) : Expr :=
  match x_val with
  | S754_zero _ => FloatNum (S754_zero false)
  | S754_finite _ _ _ => FloatNum x_val
  | _ => NonFinite
  end.

(** The value of a float that is a positive integer. *)
Definition positive_integer (x_val : float) : option Z :=
  match x_val with
  | S754_finite false m e =>
    match e with
    | Z0 => Some (Zpos m)
    | Zpos k => Some (Zpos m * 2 ^ Zpos k)
    | Zneg k =>
      if Zpos m mod 2 ^ Zpos k =? 0 then Some (Zpos m / 2 ^ Zpos k) else None
    end
  | _ => None
  end.

(** A coefficient that is a non-negative integer. *)
Definition natural (c : Qc) : bool := (0 <=? Qnum c) && (Zpos (Qden c) =? 1).

(** A positive integer substituted into a polynomial that depends on [x]
    and whose coefficients are non-negative integers, with a value below
    2^53: the terms, their products and their partial sums are positive
    integers below 2^53 in whatever order they are taken, and the 53-bit
    floating-point operations compute them exactly.  The result is the
    Float of the value. *)
Definition subs_natural (q : poly) (x_val : float) : outcome Expr :=
  match positive_integer x_val with
  | Some n =>
    let v := Qnum (eval q (Q2Qc (inject_Z n))) in
    if forallb natural q && (v <? 2 ^ 53)
    then Returns (FloatNum (binary_normalize prec emax v 0 false))
    else Unmodelled
  | None => Unmodelled
  end.

(** [a.subs({'x': x_val})] for a Python float [x_val], which sympy turns
    into a Float first.  sympy evaluates the result in floating point, in
    an order that depends on the form [simplify] chose; only the
    substitutions whose result does not depend on that order are embedded:
    into an expression without [x], which is left as it is; into the
    expression [x], which becomes the Float; and [subs_natural]. *)
Definition subs_float (a : Expr) (x_val : float) : outcome Expr :=
  match a with
  | Poly p =>
    match normalize p with
    | [] => Returns (Poly [])
    | [c] => Returns (Poly [c])
    | [c0; c1] =>
      if Qc_eqb c0 (Q2Qc 0) && Qc_eqb c1 (Q2Qc 1)
      then Returns (sympify_float x_val)
      else subs_natural [c0; c1] x_val
    | q => subs_natural q x_val
    end
  | _ => Returns a
  end.

End Sympy.

Export Sympy.

(** ** Python values and operators *)

Module Value.

(** The values the two interpolation routines compute with. *)
Inductive pyval : Type :=
| PyInt (z : Z)
| PyFloat (f : float)
| PyFraction (q : Qc)
| Sym (e : Expr).

Definition Z2Qc (z : Z) : Qc := Q2Qc (inject_Z z).

(** [float(q)] for a Fraction: numerator / denominator as ints. *)
Definition float_of_Fraction (q : Qc) : outcome float :=
  int_true_divide (Qnum q) (Zpos (Qden q)).

Definition sym (o : outcome Expr) : outcome pyval :=
  (e <- o ;; Returns (Sym e))%py.

(** [a - b] *)
Definition py_sub (a b : pyval) : outcome pyval :=
  match a, b with
  | PyInt x, PyInt y => Returns (PyInt (x - y))
  | PyFraction p, PyFraction q => Returns (PyFraction (p - q)%Qc)
  | Sym e, PyFraction q => sym (sym_add e (Rational (- q)%Qc))
  | _, _ => Unmodelled
  end.

(** [a * b].  A float times a Fraction goes through Fraction's fallback,
    which converts both operands with [float]. *)
Definition py_mul (a b : pyval) : outcome pyval :=
  match a, b with
  | PyInt x, PyInt y => Returns (PyInt (x * y))
  | PyInt x, PyFraction q => Returns (PyFraction (Z2Qc x * q)%Qc)
  | PyFraction p, PyFraction q => Returns (PyFraction (p * q)%Qc)
  | PyFloat f, PyInt y => (g <- float_of_int y ;; Returns (PyFloat (fmul f g)))%py
  | PyFloat f, PyFraction q =>
      (g <- float_of_Fraction q ;; Returns (PyFloat (fmul f g)))%py
  | PyInt x, Sym e => sym (sym_mul (Integer x) e)
  | Sym e, Sym e' => sym (sym_mul e e')
  | Sym e, PyFraction q => sym (sym_mul e (Rational q))
  | _, _ => Unmodelled
  end.

(** [a / b] *)
Definition py_truediv (a b : pyval) : outcome pyval :=
  match a, b with
  | PyInt x, PyInt y => (f <- int_true_divide x y ;; Returns (PyFloat f))%py
  | PyFloat f, PyInt y =>
      (g <- float_of_int y ;; q <- float_truediv f g ;; Returns (PyFloat q))%py
  | Sym e, PyFraction q => sym (sym_div e q)
  | _, _ => Unmodelled
  end.

(** [a + b] *)
Definition py_add (a b : pyval) : outcome pyval :=
  match a, b with
  | PyInt x, PyFloat g => (f <- float_of_int x ;; Returns (PyFloat (fadd f g)))%py
  | PyFloat f, PyFloat g => Returns (PyFloat (fadd f g))
  | PyInt x, Sym e => sym (sym_add (Integer x) e)
  | Sym e, Sym e' => sym (sym_add e e')
  | _, _ => Unmodelled
  end.

(** [simplify(v)]: sympify, then simplify. *)
Definition simplify (v : pyval) : outcome Expr :=
  match v with
  | PyInt z => Returns (sym_simplify (Integer z))
  | PyFloat f => Returns (if is_finite f then FloatNum f else NonFinite)
  | PyFraction q => Returns (sym_simplify (Rational q))
  | Sym e => Returns (sym_simplify e)
  end.

End Value.

Export Value.

(** ** Python strings *)

Module Str.

(** A [str] is a sequence of Unicode code points. *)
Definition str : Type := list N.

Definition of_string (s : string) : str := map N_of_ascii (list_ascii_of_string s).

(** The decimal numeral of a non-negative integer. *)
Definition digits_of_Z (z : Z) : str :=
  of_string (NilZero.string_of_uint (N.to_uint (Z.to_N z))).

Definition digit_char (d : Z) : N := (48 + Z.to_N d)%N.

(** [a / b] rounded to the nearest integer, ties to even ([0 < b]). *)
Definition round_half_even (a b : Z) : Z :=
  let q := a / b in
  let r := a mod b in
  match 2 * r ?= b with
  | Lt => q
  | Gt => q + 1
  | Eq => if Z.even q then q else q + 1
  end.

(** [format(f, '.4f')]: the exact binary value rounded to four decimals,
    ties to even. *)
Definition format_4f (f : float) : str :=
  match f with
  | S754_nan => of_string "nan"
  | S754_infinity s => of_string (if s then "-inf" else "inf")
  | S754_zero s => of_string (if s then "-0.0000" else "0.0000")
  | S754_finite s m e =>
    let n := match e with
             | Z0 => Zpos m * 10000
             | Zpos p => Zpos m * Z.pow_pos 2 p * 10000
             | Zneg p => round_half_even (Zpos m * 10000) (Z.pow_pos 2 p)
             end in
    let r := n mod 10000 in
    (if s then of_string "-" else []) ++ digits_of_Z (n / 10000) ++ of_string "."
      ++ [digit_char (r / 1000); digit_char (r / 100 mod 10);
          digit_char (r / 10 mod 10); digit_char (r mod 10)]
  end.

End Str.

Export Str.

(** ** Calendar arithmetic of the datetime module *)

Module Calendar.

Record date : Type := Date { year : Z; month : Z; day : Z }.

(** [_is_leap] *)
Definition is_leap (y : Z) : bool :=
  (y mod 4 =? 0) && (negb (y mod 100 =? 0) || (y mod 400 =? 0)).

(** [_days_before_year]: days before January 1st of year [y]. *)
Definition days_before_year (y : Z) : Z :=
  let y' := y - 1 in
  y' * 365 + y' / 4 - y' / 100 + y' / 400.

(** [_DAYS_IN_MONTH] and [_DAYS_BEFORE_MONTH], indexed from 1. *)
Definition DAYS_IN_MONTH : list Z :=
  [-1; 31; 28; 31; 30; 31; 30; 31; 31; 30; 31; 30; 31].

Definition DAYS_BEFORE_MONTH : list Z :=
  [-1; 0; 31; 59; 90; 120; 151; 181; 212; 243; 273; 304; 334].

Definition days_in_month (y m : Z) : Z :=
  if (m =? 2) && is_leap y then 29 else nth (Z.to_nat m) DAYS_IN_MONTH 0.

Definition days_before_month (y m : Z) : Z :=
  nth (Z.to_nat m) DAYS_BEFORE_MONTH 0 + (if (2 <? m) && is_leap y then 1 else 0).

(** [_ymd2ord]: the proleptic Gregorian ordinal, 1 for 0001-01-01. *)
Definition ymd2ord (y m d : Z) : Z :=
  days_before_year y + days_before_month y m + d.

Definition toordinal (t : date) : Z := ymd2ord (year t) (month t) (day t).

(** The field check of the [date] constructor (MINYEAR = 1, MAXYEAR = 9999). *)
Definition valid_date (y m d : Z) : bool :=
  (1 <=? y) && (y <=? 9999) && (1 <=? m) && (m <=? 12)
  && (1 <=? d) && (d <=? days_in_month y m).

(** [datetime(y, m, d)] *)
Definition datetime (y m d : Z) : outcome date :=
  if valid_date y m d then Returns (Date y m d) else Raises ValueError.

(** A date whose fields passed the constructor's check. *)
Definition valid (t : date) : Prop := valid_date (year t) (month t) (day t) = true.

(** Calendar order. *)
Definition date_lt (a b : date) : Prop :=
  year a < year b
  \/ (year a = year b /\ month a < month b)
  \/ (year a = year b /\ month a = month b /\ day a < day b).

End Calendar.

Export Calendar.

(** ** ForexData *)

Module Forex.

(** The value of a decimal digit. *)
Inductive digit : Type := D0 | D1 | D2 | D3 | D4 | D5 | D6 | D7 | D8 | D9.

Definition digit_val (d : digit) : Z :=
  match d with
  | D0 => 0 | D1 => 1 | D2 => 2 | D3 => 3 | D4 => 4
  | D5 => 5 | D6 => 6 | D7 => 7 | D8 => 8 | D9 => 9
  end.

Section WithUnicode.

(** The Unicode table of decimal digits outside ASCII: the digit value of a
    code point of category Nd, as the regular-expression class [\d] and
    [int] read it.  The table belongs to the Python runtime. *)
Variable nonascii_decimal : N -> option digit.

(** [\d] on one character, with the value [int] gives it. *)
Definition decimal (c : N) : option Z :=
  if ((48 <=? c) && (c <=? 57))%N then Some (Z.of_N c - 48)
  else if (c <? 128)%N then None
  else option_map digit_val (nonascii_decimal c).

(** Backtracking matchers: each takes the text still to be read and the
    continuation for the rest of the pattern. *)
Definition orelse {A : Type} (a b : option A) : option A :=
  match a with
  | Some r => Some r
  | None => b
  end.

(** One ASCII character in [lo-hi]; the continuation gets its digit value. *)
Definition in_range {A : Type} (lo hi : N) (s : str) (k : Z -> str -> option A)
  : option A :=
  match s with
  | c :: r => if ((lo <=? c) && (c <=? hi))%N then k (Z.of_N c - 48) r else None
  | [] => None
  end.

Definition any_decimal {A : Type} (s : str) (k : Z -> str -> option A) : option A :=
  match s with
  | c :: r => match decimal c with
              | Some v => k v r
              | None => None
              end
  | [] => None
  end.

Definition literal {A : Type} (ch : N) (s : str) (k : str -> option A) : option A :=
  match s with
  | c :: r => if (c =? ch)%N then k r else None
  | [] => None
  end.

(** [%Y]: (?P<Y>\d\d\d\d) *)
Definition match_Y {A : Type} (s : str) (k : Z -> str -> option A) : option A :=
  any_decimal s (fun a s => any_decimal s (fun b s => any_decimal s (fun c s =>
  any_decimal s (fun d s => k (1000 * a + 100 * b + 10 * c + d) s)))).

(** [%m]: (?P<m>1[0-2]|0[1-9]|[1-9]) *)
Definition match_m {A : Type} (s : str) (k : Z -> str -> option A) : option A :=
  orelse (in_range 49 49 s (fun a s => in_range 48 50 s (fun b s => k (10 * a + b) s)))
 (orelse (in_range 48 48 s (fun _ s => in_range 49 57 s (fun b s => k b s)))
         (in_range 49 57 s k)).

(** [%d]: (?P<d>3[0-1]|[1-2]\d|0[1-9]|[1-9]| [1-9]) *)
Definition match_d {A : Type} (s : str) (k : Z -> str -> option A) : option A :=
  orelse (in_range 51 51 s (fun a s => in_range 48 49 s (fun b s => k (10 * a + b) s)))
 (orelse (in_range 49 50 s (fun a s => any_decimal s (fun b s => k (10 * a + b) s)))
 (orelse (in_range 48 48 s (fun _ s => in_range 49 57 s (fun b s => k b s)))
 (orelse (in_range 49 57 s k)
         (literal 32 s (fun s => in_range 49 57 s k))))).

(** The compiled format "%Y-%m-%d", matched at the start of the text: the
    fields and the text left over. *)
Definition format_regex_match (s : str) : option (Z * Z * Z * str) :=
  match_Y s (fun y s => literal 45 s (fun s =>
  match_m s (fun m s => literal 45 s (fun s =>
  match_d s (fun d s => Some (y, m, d, s)))))).

(** [datetime.strptime(date_str, "%Y-%m-%d")] *)
Definition strptime (date_str : str) : outcome date :=
  match format_regex_match date_str with
  | None => Raises ValueError
  | Some (y, m, d, rest) =>
    match rest with
    | [] => datetime y m d
    | _ :: _ => Raises ValueError
    end
  end.

(** [ForexData.date_to_num] *)
Definition date_to_num (date_str : str) : outcome pyval :=
  (ref_date <- datetime 2002 1 1 ;;
   target_date <- strptime date_str ;;
   Returns (PyInt (toordinal target_date - toordinal ref_date)))%py.

(** [ForexData.lagrange_interpolation] *)
Definition lagrange_interpolation (x : pyval) (x_data y_data : list pyval)
  : outcome pyval :=
  let n := length x_data in
  for_each (range n) (fun result i =>
    (' (numerator, denominator) <-
        for_each (range n) (fun '(numerator, denominator) j =>
          if negb (i =? j)%nat then
            (xj <- getitem x_data j ;;
             dx <- py_sub x xj ;;
             numerator <- py_mul numerator dx ;;
             xi <- getitem x_data i ;;
             xj <- getitem x_data j ;;
             dxi <- py_sub xi xj ;;
             denominator <- py_mul denominator dxi ;;
             Returns (numerator, denominator))
          else Returns (numerator, denominator))
        (PyInt 1, PyInt 1) ;;
     yi <- getitem y_data i ;;
     t <- py_mul yi numerator ;;
     q <- py_truediv t denominator ;;
     py_add result q))%py
    (PyInt 0).

Record ForexData : Type := {
  dates : list str;
  exchange_rates : list pyval;
  date_values : list pyval
}.

(** The list comprehension of [ForexData.__init__]. *)
Fixpoint date_values_of (ds : list str) : outcome (list pyval) :=
  match ds with
  | [] => Returns []
  | d :: ds' =>
    (v <- date_to_num d ;; vs <- date_values_of ds' ;; Returns (v :: vs))%py
  end.

(** [ForexData.__init__] *)
Definition ForexData_init (ds : list str) (rates : list pyval) : outcome ForexData :=
  (vs <- date_values_of ds ;; Returns (Build_ForexData ds rates vs))%py.

(** [f"{v:.4f}"] *)
Definition format_value (v : pyval) : outcome str :=
  match v with
  | PyFloat f => Returns (format_4f f)
  | PyInt z => (f <- float_of_int z ;; Returns (format_4f f))%py
  | _ => Unmodelled
  end.

Definition invalid_date_message : str :=
  of_string "Invalid date format. Please enter a date in YYYY-MM-DD format.".

(** [try: body except ValueError: handler] *)
Definition try_except_ValueError {A : Type} (body handler : outcome A) : outcome A :=
  match body with
  | Raises ValueError => handler
  | _ => body
  end.

(** [ForexData.interpolate_exchange_rate] *)
Definition interpolate_exchange_rate (self : ForexData) (target_date_str : str)
  : outcome str :=
  try_except_ValueError
    (x <- date_to_num target_date_str ;;
     target_value <- lagrange_interpolation x (date_values self) (exchange_rates self) ;;
     v <- format_value target_value ;;
     Returns (of_string "Interpolated exchange rate for " ++ target_date_str
              ++ of_string ": " ++ v))%py
    (Returns invalid_date_message).

(** The float literal [digits * 10^-4] of the rate table. *)
Definition rate (digits : Z) : pyval := PyFloat (float_of_decimal digits 4).

(** The series built in [ForexLagrangeApp.__init__]. *)
Definition sample_dates : list str :=
  map of_string
    ["2002-01-01"; "2002-02-01"; "2002-03-01"; "2002-04-01"; "2002-05-01";
     "2002-06-01"; "2002-07-01"; "2002-08-01"; "2002-09-01"; "2002-10-01";
     "2002-11-01"; "2002-12-01";
     "2003-01-01"; "2003-02-01"; "2003-03-01"; "2003-04-01"; "2003-05-01";
     "2003-06-01"; "2003-07-01"; "2003-08-01"; "2003-09-01"; "2003-10-01";
     "2003-11-01"; "2003-12-01"]%string.

Definition sample_rate_digits : list Z :=
  [265850; 262703; 267617; 272878; 273863; 286447; 280576; 280241; 285094;
   290770; 299216; 301003; 311729; 321087; 328384; 321492; 340153; 354584;
   355996; 358302; 363606; 381060; 396118; 408515].

Definition sample_rates : list pyval := map rate sample_rate_digits.

Definition forex_data : outcome ForexData := ForexData_init sample_dates sample_rates.

End WithUnicode.

End Forex.

Export Forex.

(** ** ForexLagrangeApp *)

Module App.

Definition point : Type := (Qc * Qc)%type.

(** A point frame holds two text entries.  Each entry is given by the
    outcome of [Fraction(entry.get())] on its text. *)
Record frame : Type := {
  entry_x : outcome Qc;
  entry_y : outcome Qc
}.

(** [ForexLagrangeApp.get_points]: [None] after the error dialog of the
    [except ValueError] branch, the list of points otherwise. *)
Fixpoint get_points_from (point_frames : list frame) (points : list point)
  : outcome (option (list point)) :=
  match point_frames with
  | [] => Returns (Some points)
  | fr :: rest =>
    match (x <- entry_x fr ;; y <- entry_y fr ;; Returns (x, y))%py with
    | Returns p => get_points_from rest (points ++ [p])
    | Raises ValueError => Returns None
    | Raises e => Raises e
    | Failed t => Failed t
    | Unmodelled => Unmodelled
    end
  end.

Definition get_points (point_frames : list frame) : outcome (option (list point)) :=
  get_points_from point_frames [].

(** [ForexLagrangeApp.compute_lagrange_polynomial] *)
Definition compute_lagrange_polynomial (points : list point) : outcome Expr :=
  let x := Sym symbol_x in
  (lagrange_poly <-
     for_each (range (List.length points)) (fun lagrange_poly i =>
       (' (numerator, denominator) <-
           for_each (range (List.length points)) (fun '(numerator, denominator) j =>
             if negb (j =? i)%nat then
               (pj <- getitem points j ;;
                dx <- py_sub x (PyFraction (fst pj)) ;;
                numerator <- py_mul numerator dx ;;
                pi <- getitem points i ;;
                pj <- getitem points j ;;
                dxi <- py_sub (PyFraction (fst pi)) (PyFraction (fst pj)) ;;
                denominator <- py_mul denominator dxi ;;
                Returns (numerator, denominator))
             else Returns (numerator, denominator))
           (PyInt 1, PyInt 1) ;;
        q <- py_truediv numerator denominator ;;
        pi <- getitem points i ;;
        t <- py_mul q (PyFraction (snd pi)) ;;
        py_add lagrange_poly t))
       (PyInt 0) ;;
   simplify lagrange_poly)%py.

(** [ForexLagrangeApp.interpolate_lagrange]: [x_val = float(...)],
    [points = self.get_points()], the early return when [points] is [None]
    or empty, the polynomial of the points and its value at [x_val]; the
    two are what the dialogs show.  [x_val] is given by the outcome of
    [float] on the entry text. *)
Definition interpolate_lagrange (x_val : outcome float) (point_frames : list frame)
  : outcome (option (Expr * Expr)) :=
  (x_val <- x_val ;;
   points <- get_points point_frames ;;
   match points with
   | None | Some [] => Returns None
   | Some pts =>
     lagrange_poly <- compute_lagrange_polynomial pts ;;
     result <- subs_float lagrange_poly x_val ;;
     Returns (Some (lagrange_poly, result))
   end)%py.

End App.

Export App.

(** ** The loops as folds

    The loop bodies of the two routines under a name, their pure
    counterparts as folds, and the notions the properties are stated with. *)

Module Reference.

Local Open Scope Qc_scope.

Definition abscissa (points : list point) (j : nat) : Qc :=
  fst (nth j points (0, 0)).

Definition ordinate (points : list point) (j : nat) : Qc :=
  snd (nth j points (0, 0)).

(** The coefficients of [x - c]. *)
Definition linear (c : Qc) : poly := padd [0; 1] [- c].

(** The inner loop body of [compute_lagrange_polynomial], named. *)
Definition basis_body (points : list point) (i : nat)
  : pyval * pyval -> nat -> outcome (pyval * pyval) :=
  fun '(numerator, denominator) j =>
    if negb (j =? i)%nat then
      (pj <- getitem points j ;;
       dx <- py_sub (Sym symbol_x) (PyFraction (fst pj)) ;;
       numerator <- py_mul numerator dx ;;
       pi <- getitem points i ;;
       pj <- getitem points j ;;
       dxi <- py_sub (PyFraction (fst pi)) (PyFraction (fst pj)) ;;
       denominator <- py_mul denominator dxi ;;
       Returns (numerator, denominator))%py
    else Returns (numerator, denominator).

(** The outer loop body, named. *)
Definition term_body (points : list point) : pyval -> nat -> outcome pyval :=
  fun lagrange_poly i =>
    (' (numerator, denominator) <-
        for_each (range (List.length points)) (basis_body points i)
                 (PyInt 1, PyInt 1) ;;
     q <- py_truediv numerator denominator ;;
     pi <- getitem points i ;;
     t <- py_mul q (PyFraction (snd pi)) ;;
     py_add lagrange_poly t)%py.

(** Numerator polynomial, denominator, and whether a factor has been
    multiplied in (the accumulators are the Python int 1 until then). *)
Definition basis_step (points : list point) (i : nat)
  (s : poly * Qc * bool) (j : nat) : poly * Qc * bool :=
  let '(P, d, b) := s in
  if (j =? i)%nat then s
  else (pmul P (linear (abscissa points j)),
        d * (abscissa points i - abscissa points j), true).

Definition basis (points : list point) (i : nat) : poly * Qc * bool :=
  fold_left (basis_step points i) (range (List.length points)) ([1], 1, false).

Definition expr_plus (a b : Expr) : Expr :=
  match a, b with
  | Poly p, Poly q => Poly (padd p q)
  | _, _ => NonFinite
  end.

(** The term the outer loop adds for point [i]. *)
Definition term (points : list point) (i : nat) : Expr :=
  let '(P, d, _) := basis points i in
  if Qc_eqb d 0 then NonFinite
  else Poly (pmul (pscale (/ d) P) [ordinate points i]).

Definition interpolant (points : list point) : Expr :=
  fold_left (fun e i => expr_plus e (term points i))
            (range (List.length points)) (Integer 0).

(** The product of [v - x_j] over the indices [j] of [js] other than [i]. *)
Fixpoint basis_value (points : list point) (i : nat) (js : list nat) (v : Qc) : Qc :=
  match js with
  | [] => 1
  | j :: js' =>
    if (j =? i)%nat then basis_value points i js' v
    else (v - abscissa points j) * basis_value points i js' v
  end.

(** The Lagrange sum over the indices of [ks], as a number. *)
Fixpoint lagrange_value (points : list point) (ks : list nat) (v : Qc) : Qc :=
  match ks with
  | [] => 0
  | i :: is' =>
    ordinate points i
      * basis_value points i (range (List.length points)) v
      / basis_value points i (range (List.length points)) (abscissa points i)
    + lagrange_value points is' v
  end.

(** Pairwise distinct abscissas, by index. *)
Definition distinct_abscissas (points : list point) : Prop :=
  forall i j, (i < List.length points)%nat -> (j < List.length points)%nat ->
              abscissa points i = abscissa points j -> i = j.

(** The indices of [js] other than [i]. *)
Definition others (i : nat) (js : list nat) : list nat :=
  filter (fun j => negb (j =? i)%nat) js.

(** The inner loop body of [lagrange_interpolation], named. *)
Definition weight_body (x : pyval) (x_data : list pyval) (i : nat)
  : pyval * pyval -> nat -> outcome (pyval * pyval) :=
  fun '(numerator, denominator) j =>
    if negb (i =? j)%nat then
      (xj <- getitem x_data j ;;
       dx <- py_sub x xj ;;
       numerator <- py_mul numerator dx ;;
       xi <- getitem x_data i ;;
       xj <- getitem x_data j ;;
       dxi <- py_sub xi xj ;;
       denominator <- py_mul denominator dxi ;;
       Returns (numerator, denominator))%py
    else Returns (numerator, denominator).

(** The outer loop body of [lagrange_interpolation], named. *)
Definition sum_body (x : pyval) (x_data y_data : list pyval)
  : pyval -> nat -> outcome pyval :=
  fun result i =>
    (' (numerator, denominator) <-
        for_each (range (List.length x_data)) (weight_body x x_data i)
                 (PyInt 1, PyInt 1) ;;
     yi <- getitem y_data i ;;
     t <- py_mul yi numerator ;;
     q <- py_truediv t denominator ;;
     py_add result q)%py.

(** The integer numerator and denominator of the weight of sample [i]. *)
Definition weight_step (z : Z) (xs : list Z) (i : nat) (s : Z * Z) (j : nat)
  : Z * Z :=
  if (i =? j)%nat then s
  else ((fst s * (z - nth j xs 0%Z))%Z, (snd s * (nth i xs 0%Z - nth j xs 0%Z))%Z).

Definition weight (z : Z) (xs : list Z) (i : nat) : Z * Z :=
  fold_left (weight_step z xs i) (range (List.length xs)) (1%Z, 1%Z).

(** The day numbers of the sample dates. *)
Definition sample_days : list Z :=
  [0; 31; 59; 90; 120; 151; 181; 212; 243; 273; 304; 334;
   365; 396; 424; 455; 485; 516; 546; 577; 608; 638; 669; 699]%Z.

(** Both int-to-float conversions of iteration [i] succeed and the
    divisor is not zero. *)
Definition weight_ok (z : Z) (xs : list Z) (i : nat) : Prop :=
  exists a g,
    float_of_int (fst (weight z xs i)) = Returns a
    /\ float_of_int (snd (weight z xs i)) = Returns g
    /\ is_zero g = false.

Definition weight_denominator_ok (xs : list Z) (i : nat) : bool :=
  match float_of_int (snd (weight 0 xs i)) with
  | Returns g => negb (is_zero g)
  | _ => false
  end.

(** The values the accumulator [result] takes. *)
Definition is_number (acc : pyval) : Prop :=
  acc = PyInt 0 \/ exists f, acc = PyFloat f.

(** The distance between a float and a rational. *)
Definition abs_error (f : float) (q : Q) : Q := Qabs (to_Q f - q).

Definition tolerance : Q := 1 # 1000000000.

(** The object [ForexData.__init__] builds from the series. *)
Definition the_forex_data : ForexData :=
  {| dates := sample_dates;
     exchange_rates := sample_rates;
     date_values := map PyInt sample_days |}.

(** The evaluator at the date of sample [i]. *)
Definition sample_result (nonascii_decimal : N -> option digit)
  (fd : ForexData) (i : nat) : outcome pyval :=
  (x <- date_to_num nonascii_decimal (nth i (dates fd) []) ;;
   lagrange_interpolation x (date_values fd) (exchange_rates fd))%py.

(** Sample [i] is reproduced within the tolerance, measured against the
    stored float and against the decimal literal of the source. *)
Definition sample_check (nonascii_decimal : N -> option digit)
  (fd : ForexData) (i : nat) : bool :=
  match sample_result nonascii_decimal fd i, nth i (exchange_rates fd) (PyInt 0) with
  | Returns (PyFloat f), PyFloat y =>
    is_finite f
    && Qle_bool (abs_error f (to_Q y)) tolerance
    && Qle_bool (abs_error f (nth i sample_rate_digits 0%Z # 10000)) tolerance
  | _, _ => false
  end.

(** How the accumulators [numerator] and [denominator] hold the state of
    [basis_step]. *)
Inductive basis_rep : pyval * pyval -> poly * Qc * bool -> Prop :=
| basis_rep_int : basis_rep (PyInt 1, PyInt 1) ([1], 1, false)
| basis_rep_sym (P : poly) (d : Qc) :
    basis_rep (Sym (Poly P), PyFraction d) (P, d, true).

(** The expression an accumulator [lagrange_poly] holds. *)
Definition acc_expr (acc : pyval) : option Expr :=
  match acc with
  | PyInt z => Some (Integer z)
  | Sym (Poly p) => Some (Poly p)
  | Sym NonFinite => Some NonFinite
  | _ => None
  end.

(** A frame whose two entries parse to the coordinates of [p]. *)
Definition parsed (p : point) : frame :=
  {| entry_x := Returns (fst p); entry_y := Returns (snd p) |}.

(** What the [try] block of [get_points] computes for one frame: [x] is
    parsed first, [y] only if [x] parsed. *)
Definition frame_outcome (fr : frame) : outcome point :=
  (x <- entry_x fr ;; y <- entry_y fr ;; Returns (x, y))%py.

(** The product of [v - x_j] over the indices [j] of [js] other than [i]:
    with [v] the target it is the numerator of weight [i], with [v = x_i]
    its denominator. *)
Fixpoint weight_product (v : Z) (xs : list Z) (i : nat) (js : list nat) : Z :=
  match js with
  | [] => 1%Z
  | j :: js' =>
    if (i =? j)%nat then weight_product v xs i js'
    else ((v - nth j xs 0%Z) * weight_product v xs i js')%Z
  end.

(** The float the accumulator [result] stands for in an addition. *)
Definition acc_float (acc : pyval) : float :=
  match acc with
  | PyFloat f => f
  | _ => S754_zero false
  end.

(** One iteration of the outer loop of [lagrange_interpolation] on int
    abscissas and float ordinates, with the accumulator as a float. *)
Definition sum_step (z : Z) (xs : list Z) (ys : list float) (acc : float) (i : nat)
  : outcome float :=
  (yi <- getitem ys i ;;
   a <- float_of_int (fst (weight z xs i)) ;;
   g <- float_of_int (snd (weight z xs i)) ;;
   q <- float_truediv (fmul yi a) g ;;
   Returns (fadd acc q))%py.

(** Ints of at least this magnitude do not convert to a float. *)
Definition float_limit : Z := 2 ^ 1024 - 2 ^ 970.

(** The float nearest to an int. *)
Definition to_float (n : Z) : float := binary_normalize prec emax n 0 false.

(** The term of sample [i]: [y * numerator / denominator] in floats. *)
Definition float_term (z : Z) (xs : list Z) (y : float) (i : nat) : float :=
  fdiv (fmul y (to_float (fst (weight z xs i)))) (to_float (snd (weight z xs i))).

(** The terms of the samples [ks] added to [acc] from left to right. *)
Definition float_sum (z : Z) (xs : list Z) (ys : list float) (ks : list nat)
  (acc : float) : float :=
  fold_left (fun a i => fadd a (float_term z xs (nth i ys (S754_zero false)) i)) ks acc.

(** Numerator and denominator of weight [i] are in the range of [float]. *)
Definition convertible (z : Z) (xs : list Z) (i : nat) : Prop :=
  (Z.abs (fst (weight z xs i)) < float_limit
   /\ Z.abs (snd (weight z xs i)) < float_limit)%Z.

Definition is_nan (f : float) : bool :=
  match f with
  | S754_nan => true
  | _ => false
  end.

(** Equal as numbers: the same float, or two zeros. *)
Definition same_number (a b : float) : Prop :=
  a = b \/ (is_zero a = true /\ is_zero b = true).

(** The zero-padded text YYYY-MM-DD of a year, a month and a day. *)
Definition two_digits (v : Z) : str :=
  [digit_char (v / 10); digit_char (v mod 10)].

Definition four_digits (v : Z) : str :=
  [digit_char (v / 1000); digit_char (v / 100 mod 10);
   digit_char (v / 10 mod 10); digit_char (v mod 10)].

Definition iso_text (y m d : Z) : str :=
  four_digits y ++ [45%N] ++ two_digits m ++ [45%N] ++ two_digits d.

(** The points sampled from the polynomial [q] at the abscissas [xs]. *)
Definition samples (q : poly) (xs : list Qc) : list point :=
  map (fun x => (x, eval q x)) xs.

End Reference.

Export Reference.

(** * Properties *)

(** ** The embedding on concrete inputs *)

Section Examples.

Let ascii_only : N -> option digit := fun _ => None.

(** The Arabic-Indic digit five (U+0665) as the only digit outside ASCII. *)
Let arabic_five : N -> option digit :=
  fun c => if (c =? 1637)%N then Some D5 else None.

(** [26.585.hex()] is [0x1.a95c28f5c28f6p+4]. *)
Example float_literal_26_5850 :
  float_of_decimal 265850 4 = S754_finite false 7483012255852790 (-48).
Proof. vm_compute. reflexivity. Qed.

(** The largest int that [float] converts, and the first that overflows. *)
Example float_of_int_largest :
  float_of_int (2 ^ 1024 - 2 ^ 970 - 1)
  = Returns (S754_finite false 9007199254740991 971)
  /\ float_of_int (2 ^ 1024 - 2 ^ 970) = Raises OverflowError
  /\ binary_normalize prec emax (2 ^ 1024 - 2 ^ 970) 0 false = S754_infinity false.
Proof. repeat split; vm_compute; reflexivity. Qed.

Example int_true_divide_examples :
  int_true_divide 1 1 = Returns (S754_finite false 4503599627370496 (-52))
  /\ int_true_divide 1 3 = Returns (S754_finite false 6004799503160661 (-54))
  /\ int_true_divide 0 (-5) = Returns (S754_zero true)
  /\ int_true_divide 1 0 = Raises ZeroDivisionError
  /\ int_true_divide (10 ^ 400) 1 = Raises OverflowError.
Proof. repeat split; vm_compute; reflexivity. Qed.

(** [format(x, '.4f')] for 0.03125 (a tie, to even), 0.99999, 0.00005 (its
    float lies above the tie) and the smallest negative float. *)
Example format_4f_examples :
  format_4f (float_of_decimal 3125 5) = of_string "0.0312"
  /\ format_4f (float_of_decimal 99999 5) = of_string "1.0000"
  /\ format_4f (float_of_decimal 5 5) = of_string "0.0001"
  /\ format_4f (float_of_decimal 123456789012345 2) = of_string "1234567890123.4500"
  /\ format_4f (S754_finite true 1 (-1074)) = of_string "-0.0000".
Proof. repeat split; vm_compute; reflexivity. Qed.

Example date_to_num_examples :
  date_to_num ascii_only (of_string "2002-01-01") = Returns (PyInt 0)
  /\ date_to_num ascii_only (of_string "2002-1- 1") = Returns (PyInt 0)
  /\ date_to_num ascii_only (of_string "2002-12-31") = Returns (PyInt 364)
  /\ date_to_num ascii_only (of_string "2000-02-29") = Returns (PyInt (-672))
  /\ date_to_num ascii_only (of_string "0001-01-01") = Returns (PyInt (-730850))
  /\ date_to_num ascii_only (of_string "9999-12-31") = Returns (PyInt 2921208)
  /\ date_to_num arabic_five [50; 48; 48; 50; 45; 48; 49; 45; 49; 1637]%N
     = Returns (PyInt 14).
Proof. repeat split; vm_compute; reflexivity. Qed.

Example date_to_num_rejects :
  date_to_num ascii_only (of_string "2002/01/01") = Raises ValueError
  /\ date_to_num ascii_only (of_string "2002-01-32") = Raises ValueError
  /\ date_to_num ascii_only (of_string "2002-13-01") = Raises ValueError
  /\ date_to_num ascii_only (of_string "2002-02-30") = Raises ValueError
  /\ date_to_num ascii_only (of_string "1900-02-29") = Raises ValueError
  /\ date_to_num ascii_only (of_string "0000-01-01") = Raises ValueError
  /\ date_to_num ascii_only (of_string "2002-10-31x") = Raises ValueError
  /\ date_to_num ascii_only [50; 48; 48; 50; 45; 48; 49; 45; 49; 1637]%N
     = Raises ValueError.
Proof. repeat split; vm_compute; reflexivity. Qed.

(** The message for a date between two samples. *)
Example interpolate_exchange_rate_mid_month :
  (fd <- forex_data ascii_only ;;
   interpolate_exchange_rate ascii_only fd (of_string "2003-11-15"))%py
  = Returns (of_string "Interpolated exchange rate for 2003-11-15: 6768.9896").
Proof. vm_compute. reflexivity. Qed.

Example get_points_examples :
  get_points [Build_frame (Returns (Q2Qc 1)) (Raises ValueError);
              Build_frame (Returns (Q2Qc 2)) (Returns (Q2Qc 3))]
  = Returns None
  /\ get_points [Build_frame (Returns (Q2Qc 1)) (Returns (Q2Qc 2));
                 Build_frame (Raises ZeroDivisionError) (Returns (Q2Qc 3))]
     = Raises ZeroDivisionError
  /\ get_points [] = Returns (Some []).
Proof. repeat split. Qed.

End Examples.

(** ** Polynomial arithmetic *)

Section PolyFacts.

Local Open Scope Qc_scope.

Lemma Qc_eqb_eq (a b : Qc) : Qc_eqb a b = true <-> a = b.
Proof.
  unfold Qc_eqb. rewrite Qeq_bool_iff. split.
  - apply Qc_is_canon.
  - intros ->. reflexivity.
Qed.

Lemma Qc_eqb_neq (a b : Qc) : Qc_eqb a b = false <-> a <> b.
Proof.
  rewrite <- Qc_eqb_eq. destruct (Qc_eqb a b); split; congruence.
Qed.

Lemma poly_eqb_eq (p q : poly) : poly_eqb p q = true -> p = q.
Proof.
  revert q. induction p as [|a p IH]; intros [|b q]; simpl; try congruence.
  intros H. apply andb_prop in H. destruct H as [H1 H2].
  apply Qc_eqb_eq in H1. f_equal; auto.
Qed.

Lemma eval_padd (p q : poly) (v : Qc) :
  eval (padd p q) v = eval p v + eval q v.
Proof.
  revert q. induction p as [|a p IH]; intros [|b q]; simpl;
    rewrite ?IH; ring.
Qed.

Lemma eval_pscale (c : Qc) (p : poly) (v : Qc) :
  eval (pscale c p) v = c * eval p v.
Proof.
  induction p as [|a p IH]; simpl; rewrite ?IH; ring.
Qed.

Lemma eval_pmul (p q : poly) (v : Qc) :
  eval (pmul p q) v = eval p v * eval q v.
Proof.
  induction p as [|a p IH]; simpl.
  - ring.
  - rewrite eval_padd, eval_pscale. simpl. rewrite IH. ring.
Qed.

Lemma eval_psub (p q : poly) (v : Qc) :
  eval (psub p q) v = eval p v - eval q v.
Proof.
  unfold psub. rewrite eval_padd, eval_pscale. ring.
Qed.

Lemma eval_normalize (p : poly) (v : Qc) : eval (normalize p) v = eval p v.
Proof.
  induction p as [|a p IH]; simpl; [reflexivity|].
  destruct (normalize p) as [|b r] eqn:E.
  - rewrite <- IH. destruct (Qc_eqb a 0) eqn:Ea; simpl.
    + apply Qc_eqb_eq in Ea. subst a. ring.
    + ring.
  - rewrite <- IH. reflexivity.
Qed.

Lemma length_padd (p q : poly) :
  List.length (padd p q) = Nat.max (List.length p) (List.length q).
Proof.
  revert q. induction p as [|a p IH]; intros [|b q]; simpl; auto.
Qed.

Lemma length_pscale (c : Qc) (p : poly) : List.length (pscale c p) = List.length p.
Proof. apply length_map. Qed.

Lemma length_pmul (p q : poly) :
  (1 <= List.length q)%nat ->
  (List.length (pmul p q) <= List.length p + List.length q - 1)%nat.
Proof.
  intros Hq. induction p as [|a p IH]; cbn [pmul]; [simpl; lia|].
  rewrite length_padd, length_pscale. cbn [List.length]. lia.
Qed.

Lemma length_normalize (p : poly) :
  (List.length (normalize p) <= List.length p)%nat.
Proof.
  induction p as [|a p IH]; simpl; [lia|].
  destruct (normalize p) as [|b r].
  - destruct (Qc_eqb a 0); simpl; lia.
  - simpl in *. lia.
Qed.

(** Horner evaluation is the sum of the monomials. *)
Lemma sum_of_terms_eval (p : poly) (v : Qc) (k : nat) :
  sum_of_terms p v k = v ^ k * eval p v.
Proof.
  revert k. induction p as [|a p IH]; intros k; simpl.
  - ring.
  - rewrite IH. simpl. ring.
Qed.

Lemma all_zero_eval (p : poly) (v : Qc) : all_zero p -> eval p v = 0.
Proof.
  induction 1 as [|a p Ha _ IH]; simpl; [reflexivity|].
  rewrite IH, Ha. ring.
Qed.

Lemma all_zero_normalize (p : poly) : all_zero p -> normalize p = [].
Proof.
  induction 1 as [|a p Ha _ IH]; simpl; [reflexivity|].
  rewrite IH. subst a. reflexivity.
Qed.

Lemma all_zero_pscale_inv (c : Qc) (p : poly) :
  c <> 0 -> all_zero (pscale c p) -> all_zero p.
Proof.
  intros Hc. induction p as [|a p IH]; simpl; intros H; [constructor|].
  inversion H as [|? ? Ha Hp]; subst. constructor.
  - destruct (Qcmult_integral _ _ Ha); [contradiction | assumption].
  - apply IH. assumption.
Qed.

Lemma normalize_psub_zero (p q : poly) :
  all_zero (psub p q) -> normalize p = normalize q.
Proof.
  unfold psub. revert q. induction p as [|a p IH]; intros [|b q] H.
  - reflexivity.
  - change (all_zero (pscale (- (1)) (b :: q))) in H.
    apply all_zero_pscale_inv in H; [|discriminate].
    rewrite (all_zero_normalize H). reflexivity.
  - simpl in H. rewrite (all_zero_normalize H). reflexivity.
  - simpl in H. inversion H as [|? ? Hab Hpq]; subst.
    assert (Eab : a = b).
    { transitivity (a + - (1) * b + b); [ring | rewrite Hab; ring]. }
    subst b. simpl. rewrite (IH q Hpq). reflexivity.
Qed.

Lemma quot_spec (a : Qc) (p : poly) (v : Qc) :
  eval p v = eval p a + (v - a) * eval (quot a p) v.
Proof.
  induction p as [|c p IH]; simpl; [ring|].
  destruct p as [|d p]; [simpl; ring|].
  remember (d :: p) as p'. simpl. rewrite IH at 1. ring.
Qed.

Lemma length_quot (a : Qc) (p : poly) :
  List.length (quot a p) = pred (List.length p).
Proof.
  induction p as [|c p IH]; simpl; [reflexivity|].
  destruct p as [|d p]; [reflexivity|].
  remember (d :: p) as p'. simpl. rewrite IH. subst p'. reflexivity.
Qed.

Lemma quot_all_zero (a : Qc) (p : poly) :
  all_zero (quot a p) -> eval p a = 0 -> all_zero p.
Proof.
  induction p as [|c p IH]; [constructor|].
  destruct p as [|d p].
  - simpl. intros _ H. constructor; [|constructor].
    rewrite <- H. ring.
  - remember (d :: p) as p'. intros Hq Hp.
    assert (E : quot a (c :: p') = eval p' a :: quot a p') by (subst p'; reflexivity).
    rewrite E in Hq. inversion Hq as [|? ? H1 H2]; subst x l.
    specialize (IH H2 H1). constructor; [|assumption].
    simpl in Hp. rewrite H1 in Hp. rewrite <- Hp. ring.
Qed.

(** A polynomial with fewer coefficients than distinct roots is zero. *)
Lemma roots_all_zero (rs : list Qc) :
  forall p : poly,
    NoDup rs -> (List.length p <= List.length rs)%nat ->
    (forall r, In r rs -> eval p r = 0) -> all_zero p.
Proof.
  induction rs as [|a rs IH]; intros p Hnd Hlen Hroots.
  - destruct p; [constructor | simpl in Hlen; lia].
  - inversion Hnd as [|? ? Hnotin Hnd']; subst.
    apply (quot_all_zero a); [|apply Hroots; left; reflexivity].
    apply IH; [assumption | rewrite length_quot; simpl in Hlen; lia |].
    intros r Hr.
    assert (Hra : r - a <> 0).
    { intros E. apply Hnotin. replace a with r; [assumption|].
      transitivity (r - a + a); [ring | rewrite E; ring]. }
    apply Qcmult_integral_l with (x := r - a); [exact Hra|].
    transitivity (eval p r - eval p a); [rewrite (quot_spec a p r); ring|].
    rewrite (Hroots r), (Hroots a); [ring | left; reflexivity | right; assumption].
Qed.

(** Two polynomials with at most [n] coefficients that agree at [n]
    distinct points have the same canonical form. *)
Lemma normalize_unique (rs : list Qc) (p q : poly) :
  NoDup rs ->
  (List.length p <= List.length rs)%nat ->
  (List.length q <= List.length rs)%nat ->
  (forall r, In r rs -> eval p r = eval q r) ->
  normalize p = normalize q.
Proof.
  intros Hnd Hp Hq Heq. apply normalize_psub_zero.
  apply roots_all_zero with (rs := rs); [assumption | |].
  - unfold psub. rewrite length_padd, length_pscale. lia.
  - intros r Hr. rewrite eval_psub, (Heq r Hr). ring.
Qed.

End PolyFacts.

(** ** The loops of compute_lagrange_polynomial *)

Section BuilderFacts.

Local Open Scope Qc_scope.

Variable points : list point.

Let n : nat := List.length points.

Lemma compute_lagrange_polynomial_loops :
  compute_lagrange_polynomial points
  = (lagrange_poly <- for_each (range n) (term_body points) (PyInt 0) ;;
     simplify lagrange_poly)%py.
Proof. reflexivity. Qed.

Lemma getitem_nth (j : nat) :
  (j < n)%nat -> getitem points j = Returns (nth j points (0, 0)).
Proof.
  intros H. unfold getitem.
  destruct (nth_error points j) as [p|] eqn:E.
  - rewrite (nth_error_nth _ _ _ E). reflexivity.
  - apply nth_error_None in E. unfold n in H. lia.
Qed.

Lemma basis_body_step (i j : nat) s st :
  basis_rep s st -> (j < n)%nat -> (i < n)%nat ->
  exists s', basis_body points i s j = Returns s'
             /\ basis_rep s' (basis_step points i st j).
Proof.
  intros Hrep Hj Hi. unfold basis_body, basis_step.
  destruct Hrep as [|P d]; destruct (j =? i)%nat eqn:E; simpl.
  - eexists; split; [reflexivity | constructor].
  - rewrite (getitem_nth Hj), (getitem_nth Hi). simpl.
    eexists; split; [reflexivity | apply basis_rep_sym].
  - eexists; split; [reflexivity | constructor].
  - rewrite (getitem_nth Hj), (getitem_nth Hi). simpl.
    eexists; split; [reflexivity | apply basis_rep_sym].
Qed.

Lemma basis_loop (i : nat) (js : list nat) :
  (i < n)%nat -> Forall (fun j => (j < n)%nat) js ->
  forall s st, basis_rep s st ->
  exists s', for_each js (basis_body points i) s = Returns s'
             /\ basis_rep s' (fold_left (basis_step points i) js st).
Proof.
  intros Hi Hjs. induction Hjs as [|j js Hj _ IH]; intros s st Hrep.
  - exists s. split; [reflexivity | assumption].
  - destruct (basis_body_step Hrep Hj Hi) as [s1 [E1 R1]].
    destruct (IH _ _ R1) as [s' [E' R']].
    exists s'. split; [|assumption].
    simpl. rewrite E1. simpl. assumption.
Qed.

Lemma range_lt : Forall (fun j => (j < n)%nat) (range n).
Proof.
  apply Forall_forall. intros j Hj. unfold range in Hj.
  apply in_seq in Hj. lia.
Qed.

Lemma basis_step_flag (i : nat) (js : list nat) :
  forall P d b,
    snd (fold_left (basis_step points i) js (P, d, b))
    = b || existsb (fun j => negb (j =? i)%nat) js.
Proof.
  induction js as [|j js IH]; intros P d b; simpl.
  - rewrite orb_false_r. reflexivity.
  - destruct (j =? i)%nat; simpl.
    + apply IH.
    + rewrite IH. rewrite orb_true_r. reflexivity.
Qed.

Lemma basis_touched (i : nat) :
  (2 <= n)%nat -> snd (basis points i) = true.
Proof.
  intros Hn. unfold basis. rewrite basis_step_flag. simpl.
  apply existsb_exists. fold n.
  destruct i as [|i].
  - exists 1%nat. split; [|reflexivity].
    apply in_seq. lia.
  - exists 0%nat. split; [|reflexivity].
    apply in_seq. lia.
Qed.

(** One iteration of the outer loop, for at least two points. *)
Lemma term_body_step (i : nat) (acc : pyval) (e : Expr) :
  (2 <= n)%nat -> (i < n)%nat -> acc_expr acc = Some e ->
  term_body points acc i = Returns (Sym (expr_plus e (term points i))).
Proof.
  intros Hn Hi Hacc. unfold term_body. fold n.
  destruct (basis_loop Hi range_lt basis_rep_int) as [s' [E R]].
  rewrite E.
  pose proof (basis_touched i Hn) as Ht.
  pose proof (getitem_nth Hi) as Hg.
  unfold term, basis in *. unfold n in *.
  destruct (fold_left (basis_step points i) (range (List.length points)) ([1], 1, false))
    as [[P d] b]. simpl in Ht. subst b.
  inversion R; subst. simpl.
  rewrite Hg.
  destruct (Qc_eqb d 0) eqn:Ed; simpl.
  - destruct acc as [z| | |[p| |]]; simpl in Hacc; inversion Hacc; subst;
      reflexivity.
  - destruct acc as [z| | |[p| |]]; simpl in Hacc; inversion Hacc; subst;
      reflexivity.
Qed.

Lemma acc_expr_plus (e t : Expr) : acc_expr (Sym (expr_plus e t)) = Some (expr_plus e t).
Proof. destruct e, t; reflexivity. Qed.

Lemma term_loop (ks : list nat) :
  (2 <= n)%nat -> Forall (fun i => (i < n)%nat) ks ->
  forall acc e, acc_expr acc = Some e ->
  exists acc', for_each ks (term_body points) acc = Returns acc'
    /\ acc_expr acc' = Some (fold_left (fun e i => expr_plus e (term points i)) ks e).
Proof.
  intros Hn Hks. induction Hks as [|i ks Hi _ IH]; intros acc e Hacc.
  - exists acc. split; [reflexivity | assumption].
  - destruct (IH _ _ (acc_expr_plus e (term points i))) as [acc' [E' R']].
    exists acc'. split; [|assumption].
    simpl. rewrite (@term_body_step i acc e Hn Hi Hacc). simpl. assumption.
Qed.

(** With at least two points every value is a sympy expression and the
    function returns the simplified sum of the terms. *)
Lemma compute_lagrange_polynomial_interpolant :
  (2 <= n)%nat ->
  compute_lagrange_polynomial points = Returns (sym_simplify (interpolant points)).
Proof.
  intros Hn. rewrite compute_lagrange_polynomial_loops.
  destruct (@term_loop (range n) Hn range_lt (PyInt 0) (Integer 0) eq_refl)
    as [acc' [E R]].
  rewrite E. unfold interpolant. unfold n in *.
  destruct acc' as [z| | |[p|f|]]; simpl in R; inversion R; reflexivity.
Qed.

End BuilderFacts.

(** ** What the folds compute *)

Section InterpolantFacts.

Local Open Scope Qc_scope.

Variable points : list point.

Let n : nat := List.length points.

Lemma eval_linear (c v : Qc) : eval (linear c) v = v - c.
Proof. unfold linear. simpl. ring. Qed.

Lemma length_linear (c : Qc) : List.length (linear c) = 2%nat.
Proof. reflexivity. Qed.

Lemma others_length_lt (i : nat) (js : list nat) :
  In i js -> (List.length (others i js) < List.length js)%nat.
Proof.
  unfold others. induction js as [|j js IH]; simpl; [tauto|].
  intros [E|H].
  - subst j. rewrite Nat.eqb_refl. simpl.
    pose proof (filter_length_le (fun j => negb (j =? i)%nat) js). lia.
  - specialize (IH H). destruct (negb (j =? i)%nat); simpl; lia.
Qed.

Lemma basis_fold (i : nat) (js : list nat) :
  forall (P : poly) (d : Qc) (b : bool),
    (1 <= List.length P)%nat ->
    let r := fold_left (basis_step points i) js (P, d, b) in
    (forall v, eval (fst (fst r)) v = eval P v * basis_value points i js v)
    /\ snd (fst r) = d * basis_value points i js (abscissa points i)
    /\ (1 <= List.length (fst (fst r)) <= List.length P + List.length (others i js))%nat.
Proof.
  induction js as [|j js IH]; intros P d b HP; simpl.
  - repeat split; try lia; intros; ring.
  - unfold others. simpl. destruct (j =? i)%nat eqn:E; simpl.
    + apply IH. assumption.
    + assert (HP' : (1 <= List.length (pmul P (linear (abscissa points j))) <= S (List.length P))%nat).
      { pose proof (@length_pmul P (linear (abscissa points j))) as H.
        rewrite length_linear in H. split; [|lia].
        destruct P as [|a P]; [simpl in HP; lia|].
        cbn [pmul]. rewrite length_padd, length_pscale, length_linear. lia. }
      destruct (IH (pmul P (linear (abscissa points j)))
                   (d * (abscissa points i - abscissa points j)) true) as [H1 [H2 H3]];
        [lia|].
      repeat split.
      * intros v. etransitivity; [apply H1|].
        rewrite eval_pmul, eval_linear. ring.
      * etransitivity; [exact H2 | ring].
      * exact (proj1 H3).
      * eapply Nat.le_trans; [exact (proj2 H3)|].
        unfold others. lia.
Qed.

Lemma range_In (i : nat) : (i < n)%nat -> In i (range n).
Proof. intros H. apply in_seq. lia. Qed.

Lemma basis_spec (i : nat) :
  (i < n)%nat ->
  (forall v, eval (fst (fst (basis points i))) v = basis_value points i (range n) v)
  /\ snd (fst (basis points i)) = basis_value points i (range n) (abscissa points i)
  /\ (List.length (fst (fst (basis points i))) <= n)%nat.
Proof.
  intros Hi. unfold basis. fold n.
  destruct (@basis_fold i (range n) [1] 1 false) as [H1 [H2 H3]]; [simpl; lia|].
  repeat split.
  - intros v. etransitivity; [apply H1|]. simpl. ring.
  - etransitivity; [exact H2 | ring].
  - pose proof (others_length_lt i (range n) (range_In Hi)) as H.
    unfold range in H at 2. rewrite length_seq in H.
    eapply Nat.le_trans; [exact (proj2 H3)|]. simpl. lia.
Qed.

Lemma basis_value_zero (i k : nat) (js : list nat) :
  In k js -> k <> i -> basis_value points i js (abscissa points k) = 0.
Proof.
  intros Hk Hki. induction js as [|j js IH]; simpl; [destruct Hk|].
  destruct Hk as [E|Hk].
  - subst j. apply Nat.eqb_neq in Hki. rewrite Hki. ring.
  - destruct (j =? i)%nat; [auto|]. rewrite (IH Hk). ring.
Qed.

Lemma basis_value_nonzero (i : nat) (js : list nat) (v : Qc) :
  (forall j, In j js -> j <> i -> abscissa points j <> v) ->
  basis_value points i js v <> 0.
Proof.
  induction js as [|j js IH]; simpl; intros H.
  - discriminate.
  - destruct (j =? i)%nat eqn:E.
    + apply IH. intros j' Hj'. apply H. right. assumption.
    + apply Nat.eqb_neq in E. intros Hz.
      destruct (Qcmult_integral _ _ Hz) as [Hz'|Hz'].
      * apply (H j); [left; reflexivity | assumption|].
        transitivity (abscissa points j + (v - abscissa points j)); [rewrite Hz'|]; ring.
      * revert Hz'. apply IH. intros j' Hj'. apply H. right. assumption.
Qed.

Lemma NoDup_distinct_abscissas : NoDup (map fst points) -> distinct_abscissas points.
Proof.
  intros Hnd i j Hi Hj E.
  apply (proj1 (NoDup_nth (map fst points) 0) Hnd); rewrite ?length_map; try assumption.
  unfold abscissa in E.
  change 0 with (fst ((0, 0) : point)). rewrite !map_nth. exact E.
Qed.

Lemma denominator_nonzero (i : nat) :
  distinct_abscissas points -> (i < n)%nat ->
  basis_value points i (range n) (abscissa points i) <> 0.
Proof.
  intros Hd Hi. apply basis_value_nonzero.
  intros j Hj Hji E. apply Hji. apply Hd; try assumption.
  apply in_seq in Hj. lia.
Qed.

Lemma term_poly (i : nat) :
  (i < n)%nat ->
  basis_value points i (range n) (abscissa points i) <> 0 ->
  exists T, term points i = Poly T
    /\ (List.length T <= n)%nat
    /\ forall v, eval T v =
         ordinate points i * basis_value points i (range n) v
         / basis_value points i (range n) (abscissa points i).
Proof.
  intros Hi Hnz. destruct (basis_spec Hi) as [H1 [H2 H3]].
  unfold term. destruct (basis points i) as [[P d] b]. simpl in *.
  rewrite <- H2 in *.
  apply Qc_eqb_neq in Hnz. rewrite Hnz.
  eexists. split; [reflexivity|]. split.
  - pose proof (@length_pmul (pscale (/ d) P) [ordinate points i]) as H.
    rewrite length_pscale in H. simpl in H. lia.
  - intros v. rewrite eval_pmul, eval_pscale, H1. simpl.
    apply Qc_eqb_neq in Hnz. field. assumption.
Qed.

Lemma term_nonfinite (i : nat) :
  (i < n)%nat ->
  basis_value points i (range n) (abscissa points i) = 0 ->
  term points i = NonFinite.
Proof.
  intros Hi Hz. destruct (basis_spec Hi) as [_ [H2 _]].
  unfold term. destruct (basis points i) as [[P d] b]. simpl in *.
  rewrite H2, Hz. reflexivity.
Qed.

Lemma interpolant_fold (ks : list nat) :
  Forall (fun i => (i < n)%nat
                   /\ basis_value points i (range n) (abscissa points i) <> 0) ks ->
  forall S, (List.length S <= n)%nat ->
  exists S', fold_left (fun e i => expr_plus e (term points i)) ks (Poly S) = Poly S'
    /\ (List.length S' <= n)%nat
    /\ forall v, eval S' v = eval S v + lagrange_value points ks v.
Proof.
  induction 1 as [|i ks [Hi Hnz] _ IH]; intros S HS; simpl.
  - exists S. repeat split; [assumption | intros; ring].
  - destruct (term_poly Hi Hnz) as [T [ET [LT VT]]].
    rewrite ET. simpl.
    destruct (IH (padd S T)) as [S' [E' [L' V']]].
    { rewrite length_padd. lia. }
    exists S'. repeat split; [assumption | assumption |].
    intros v. rewrite V', eval_padd, VT. fold n. ring.
Qed.

Lemma lagrange_value_node (ks : list nat) (k : nat) :
  distinct_abscissas points -> (k < n)%nat -> NoDup ks ->
  Forall (fun i => (i < n)%nat) ks ->
  lagrange_value points ks (abscissa points k)
  = if in_dec Nat.eq_dec k ks then ordinate points k else 0.
Proof.
  intros Hd Hk Hnd Hks. induction Hks as [|i ks Hi Hks IH]; simpl; [reflexivity|].
  inversion Hnd as [|? ? Hnotin Hnd']; subst. fold n.
  rewrite (IH Hnd'). destruct (Nat.eq_dec i k) as [E|E].
  - subst i. destruct (in_dec Nat.eq_dec k ks) as [Hin|_]; [contradiction|].
    field. apply denominator_nonzero; assumption.
  - rewrite (@basis_value_zero i k (range n)); [|apply range_In; assumption|congruence].
    destruct (in_dec Nat.eq_dec k ks).
    + field. apply denominator_nonzero; assumption.
    + field. apply denominator_nonzero; assumption.
Qed.

(** For pairwise distinct abscissas the sum of the terms is a polynomial
    with at most [n] coefficients that takes the value [y_k] at [x_k]. *)
Lemma interpolant_spec :
  (1 <= n)%nat -> distinct_abscissas points ->
  exists S, interpolant points = Poly S
    /\ (List.length S <= n)%nat
    /\ (forall v, eval S v = lagrange_value points (range n) v)
    /\ forall k, (k < n)%nat -> eval S (abscissa points k) = ordinate points k.
Proof.
  intros Hn Hd. unfold interpolant. fold n.
  destruct (@interpolant_fold (range n)) with (S := [Q2Qc (inject_Z 0)])
    as [S [ES [LS VS]]].
  - apply Forall_forall. intros i Hi. apply in_seq in Hi. split; [lia|].
    apply denominator_nonzero; [assumption | lia].
  - simpl. lia.
  - exists S. split; [exact ES|]. split; [assumption|]. split.
    + intros v. rewrite VS. simpl.
      change (Q2Qc (inject_Z 0)) with 0. ring.
    + intros k Hk. rewrite VS. simpl.
      rewrite lagrange_value_node; try assumption.
      * destruct (in_dec Nat.eq_dec k (range n)) as [_|Hout].
        -- change (Q2Qc (inject_Z 0)) with 0. ring.
        -- exfalso. apply Hout. apply range_In. assumption.
      * apply seq_NoDup.
      * apply Forall_forall. intros i Hi. apply in_seq in Hi. lia.
Qed.

(** A zero denominator makes the sum non-finite. *)
Lemma interpolant_fold_nonfinite (ks : list nat) (i : nat) :
  In i ks -> term points i = NonFinite ->
  forall e, fold_left (fun e i => expr_plus e (term points i)) ks e = NonFinite.
Proof.
  intros Hin Ht.
  assert (Hstay : forall ks', fold_left (fun e i => expr_plus e (term points i)) ks' NonFinite
                              = NonFinite).
  { induction ks' as [|j ks' IH]; simpl; [reflexivity | exact IH]. }
  induction ks as [|j ks IH]; intros e; simpl; [destruct Hin|].
  destruct Hin as [E|Hin].
  - subst j. rewrite Ht. replace (expr_plus e NonFinite) with NonFinite.
    + apply Hstay.
    + destruct e; reflexivity.
  - apply IH. assumption.
Qed.

End InterpolantFacts.

(** ** The symbolic builder *)

Section BuilderTheorems.

Local Open Scope Qc_scope.

Lemma normalize_idempotent (p : poly) : normalize (normalize p) = normalize p.
Proof.
  induction p as [|a p IH]; simpl; [reflexivity|].
  destruct (normalize p) as [|b r] eqn:E.
  - destruct (Qc_eqb a 0) eqn:Ea; simpl; [reflexivity|].
    rewrite Ea. reflexivity.
  - remember (b :: r) as q. simpl. rewrite IH. subst q. reflexivity.
Qed.

Lemma In_point_index (points : list point) (x y : Qc) :
  In (x, y) points ->
  exists k, (k < List.length points)%nat
            /\ abscissa points k = x /\ ordinate points k = y.
Proof.
  intros H. destruct (In_nth points (x, y) (0, 0) H) as [k [Hk E]].
  exists k. unfold abscissa, ordinate. rewrite E. auto.
Qed.

(** With two or more points of pairwise distinct abscissas the builder
    returns a polynomial in canonical form, with at most [n] coefficients,
    that passes through every point. *)
Lemma compute_lagrange_polynomial_interpolates (points : list point) :
  (2 <= List.length points)%nat -> NoDup (map fst points) ->
  exists S,
    compute_lagrange_polynomial points = Returns (Poly (normalize S))
    /\ (List.length S <= List.length points)%nat
    /\ forall x y, In (x, y) points -> eval S x = y.
Proof.
  intros Hn Hnd.
  destruct (@interpolant_spec points) as [S [ES [LS [_ HS]]]];
    [lia | apply NoDup_distinct_abscissas; assumption |].
  exists S. split; [|split; [assumption|]].
  - rewrite compute_lagrange_polynomial_interpolant by assumption.
    rewrite ES. reflexivity.
  - intros x y Hin. destruct (In_point_index _ _ _ Hin) as [k [Hk [Ex Ey]]].
    rewrite <- Ex, <- Ey. apply HS. assumption.
Qed.

(** Exact interpolation for two or more points: substituting an input
    abscissa gives the ordinate as an exact rational. *)
Lemma interpolation_exact_for_two_or_more_points (points : list point) :
  (2 <= List.length points)%nat -> NoDup (map fst points) ->
  exists e,
    compute_lagrange_polynomial points = Returns e
    /\ forall x y, In (x, y) points -> subs e x = sym_simplify (Rational y).
Proof.
  intros Hn Hnd.
  destruct (compute_lagrange_polynomial_interpolates points Hn Hnd) as [S [E [_ HS]]].
  exists (Poly (normalize S)). split; [assumption|].
  intros x y Hin. simpl. rewrite eval_normalize, (HS x y Hin). reflexivity.
Qed.

Lemma returns_poly_eqb (o : outcome Expr) (p : poly) :
  match o with
  | Returns (Poly q) => poly_eqb q p
  | _ => false
  end = true ->
  o = Returns (Poly p).
Proof.
  destruct o as [[q| |]| | |]; try discriminate.
  intros H. apply poly_eqb_eq in H. subst q. reflexivity.
Qed.

Lemma Qc_neq_by_eqb (a b : Qc) : Qc_eqb a b = false -> a <> b.
Proof. apply Qc_eqb_neq. Qed.

(** The result for a single point: the term is computed with Python
    floats, since [1 / 1] divides two ints. *)
Lemma compute_lagrange_polynomial_single (x0 y0 : Qc) :
  compute_lagrange_polynomial [(x0, y0)]
  = (g <- float_of_Fraction y0 ;;
     let f := fadd (S754_zero false) (fmul (S754_finite false 4503599627370496 (-52)) g) in
     Returns (if is_finite f then FloatNum f else NonFinite))%py.
Proof.
  unfold compute_lagrange_polynomial. simpl.
  destruct (float_of_Fraction y0); reflexivity.
Qed.

(** The builder returns an expression or, for a single point whose
    ordinate is too large for a float, raises OverflowError. *)
Lemma compute_lagrange_polynomial_outcomes (points : list point) :
  (exists e, compute_lagrange_polynomial points = Returns e)
  \/ compute_lagrange_polynomial points = Raises OverflowError.
Proof.
  destruct points as [|[x0 y0] [|q ps]].
  - left. eexists. reflexivity.
  - rewrite compute_lagrange_polynomial_single.
    unfold float_of_Fraction, int_true_divide.
    destruct (Qnum y0); cbn [bind].
    + left. eexists. reflexivity.
    + destruct (is_finite _); [left; eexists; reflexivity | right; reflexivity].
    + destruct (is_finite _); [left; eexists; reflexivity | right; reflexivity].
  - left. eexists. apply compute_lagrange_polynomial_interpolant. simpl. lia.
Qed.

End BuilderTheorems.

Section BuilderClaims.

Local Open Scope Qc_scope.

Lemma not_NoDup_indices (l : list Qc) :
  ~ NoDup l ->
  exists i j, (i < j < List.length l)%nat /\ nth i l 0 = nth j l 0.
Proof.
  induction l as [|a l IH]; intros H.
  - exfalso. apply H. constructor.
  - destruct (in_dec Qc_eq_dec a l) as [Hin|Hout].
    + destruct (In_nth l a 0 Hin) as [j [Hj E]].
      exists 0%nat, (S j). split; [simpl; lia | simpl; congruence].
    + destruct IH as [i [j [Hij E]]].
      * intros Hnd. apply H. constructor; assumption.
      * exists (S i), (S j). split; [simpl; lia | exact E].
Qed.

Lemma abscissa_map (points : list point) (j : nat) :
  nth j (map fst points) 0 = abscissa points j.
Proof.
  unfold abscissa. change 0 with (fst ((0, 0) : point)) at 1. apply map_nth.
Qed.

(** Two points with the same abscissa: some denominator is zero and the
    builder returns a non-finite expression. *)
Lemma compute_lagrange_polynomial_duplicate (points : list point) :
  ~ NoDup (map fst points) ->
  compute_lagrange_polynomial points = Returns NonFinite.
Proof.
  intros Hdup. destruct (not_NoDup_indices Hdup) as [i [j [Hij E]]].
  rewrite length_map in Hij. rewrite !abscissa_map in E.
  assert (Hn : (2 <= @List.length (Qc * Qc) points)%nat) by lia.
  assert (Hi : (i < @List.length (Qc * Qc) points)%nat) by lia.
  assert (Hj : (j < @List.length (Qc * Qc) points)%nat) by lia.
  rewrite compute_lagrange_polynomial_interpolant by exact Hn.
  unfold interpolant.
  rewrite (@interpolant_fold_nonfinite points (range (List.length points)) i);
    [reflexivity | apply in_seq; split; [apply Nat.le_0_l | exact Hi] |].
  apply term_nonfinite; [exact Hi|].
  rewrite E. apply basis_value_zero.
  - apply in_seq. split; [apply Nat.le_0_l | exact Hj].
  - lia.
Qed.

(** C1, at the failing input: for the single point (0, 1/3) the builder
    returns the float nearest to 1/3, and substituting the abscissa 0
    leaves that float, whose value is not 1/3. *)
Theorem C1_single_point_misses_ordinate :
  let f := S754_finite false 6004799503160661 (-54) in
  compute_lagrange_polynomial [(Q2Qc 0, Q2Qc (1 # 3))] = Returns (FloatNum f)
  /\ subs (FloatNum f) (Q2Qc 0) = FloatNum f
  /\ ~ (to_Q f == 1 # 3)%Q.
Proof.
  split; [|split].
  - vm_compute. reflexivity.
  - reflexivity.
  - intros H. vm_compute in H. discriminate.
Qed.

(** C2, counterexample: for the points (1,1) and (1,2), which share the
    abscissa 1, the pipeline returns a non-finite expression, as polynomial
    and as value, and no DuplicateAbscissa failure. *)
Lemma C2_counterexample :
  let frames := [Build_frame (Returns (Q2Qc 1)) (Returns (Q2Qc 1));
                 Build_frame (Returns (Q2Qc 1)) (Returns (Q2Qc 2))] in
  get_points frames = Returns (Some [(Q2Qc 1, Q2Qc 1); (Q2Qc 1, Q2Qc 2)])
  /\ interpolate_lagrange (Returns (S754_zero false)) frames
     = Returns (Some (NonFinite, NonFinite))
  /\ interpolate_lagrange (Returns (S754_zero false)) frames <> Failed DuplicateAbscissa.
Proof.
  split; [|split].
  - reflexivity.
  - vm_compute. reflexivity.
  - intros H. vm_compute in H. discriminate.
Qed.

(** C2, as amended: for every point set read from the frames that has two
    points with equal x-values, the pipeline makes no distinctness test and
    reports no failure: the zero denominator gives a non-finite expression,
    which is what it returns, as polynomial and as value. *)
Theorem C2_duplicates_return_nonfinite
  (frames : list frame) (points : list point) (x_val : float) :
  get_points frames = Returns (Some points) ->
  ~ NoDup (map fst points) ->
  interpolate_lagrange (Returns x_val) frames = Returns (Some (NonFinite, NonFinite)).
Proof.
  intros Hg Hdup. unfold interpolate_lagrange. simpl. rewrite Hg. simpl.
  destruct points as [|p ps].
  - exfalso. apply Hdup. constructor.
  - rewrite (@compute_lagrange_polynomial_duplicate (p :: ps) Hdup). reflexivity.
Qed.

(** The amended C2 at the points (1,1) and (1,2). *)
Lemma C2_duplicates_return_nonfinite_witness :
  interpolate_lagrange (Returns (S754_zero false))
    [Build_frame (Returns (Q2Qc 1)) (Returns (Q2Qc 1));
     Build_frame (Returns (Q2Qc 1)) (Returns (Q2Qc 2))]
  = Returns (Some (NonFinite, NonFinite)).
Proof.
  apply (@C2_duplicates_return_nonfinite _ [(Q2Qc 1, Q2Qc 1); (Q2Qc 1, Q2Qc 2)]).
  - reflexivity.
  - intros H. inversion H as [|? ? Hnotin _]. apply Hnotin. left. reflexivity.
Defined.

(** C3, counterexample: for the points (0,1), (1,2), (2,5) the builder
    returns x^2 + 1, not x^2 + x + 1, and the value the application
    computes for the entry 3 is not 13, neither as a rational nor as a
    float. *)
Lemma C3_counterexample :
  let points := [(Q2Qc 0, Q2Qc 1); (Q2Qc 1, Q2Qc 2); (Q2Qc 2, Q2Qc 5)] in
  let frames := [Build_frame (Returns (Q2Qc 0)) (Returns (Q2Qc 1));
                 Build_frame (Returns (Q2Qc 1)) (Returns (Q2Qc 2));
                 Build_frame (Returns (Q2Qc 2)) (Returns (Q2Qc 5))] in
  get_points frames = Returns (Some points)
  /\ compute_lagrange_polynomial points <> Returns (Poly [Q2Qc 1; Q2Qc 1; Q2Qc 1])
  /\ (forall e r,
        interpolate_lagrange (Returns (float_of_decimal 3 0)) frames
        = Returns (Some (e, r)) ->
        r <> Rational (Q2Qc 13) /\ r <> FloatNum (float_of_decimal 13 0)).
Proof.
  assert (E : compute_lagrange_polynomial
                [(Q2Qc 0, Q2Qc 1); (Q2Qc 1, Q2Qc 2); (Q2Qc 2, Q2Qc 5)]
              = Returns (Poly [Q2Qc 1; Q2Qc 0; Q2Qc 1])).
  { apply returns_poly_eqb. vm_compute. reflexivity. }
  cbv zeta. split; [reflexivity|]. split.
  - rewrite E. intros H. inversion H.
  - intros e r. unfold interpolate_lagrange.
    cbn [bind get_points get_points_from entry_x entry_y app].
    match goal with
    | |- context [compute_lagrange_polynomial ?l] =>
      replace (compute_lagrange_polynomial l)
        with (Returns (Poly [Q2Qc 1; Q2Qc 0; Q2Qc 1])) by (symmetry; exact E)
    end.
    intros H. vm_compute in H. inversion H. split; discriminate.
Qed.

(** C3, as amended: for the points (0,1), (1,2), (2,5) the builder returns
    the canonical polynomial x^2 + 1, and for the entry 3, which [float]
    reads as 3.0, the application computes the value 10, as the sympy
    Float 10.0. *)
Theorem C3_example_polynomial :
  compute_lagrange_polynomial [(Q2Qc 0, Q2Qc 1); (Q2Qc 1, Q2Qc 2); (Q2Qc 2, Q2Qc 5)]
  = Returns (Poly [Q2Qc 1; Q2Qc 0; Q2Qc 1])
  /\ interpolate_lagrange (Returns (float_of_decimal 3 0))
       [Build_frame (Returns (Q2Qc 0)) (Returns (Q2Qc 1));
        Build_frame (Returns (Q2Qc 1)) (Returns (Q2Qc 2));
        Build_frame (Returns (Q2Qc 2)) (Returns (Q2Qc 5))]
     = Returns (Some (Poly [Q2Qc 1; Q2Qc 0; Q2Qc 1],
                      FloatNum (float_of_decimal 10 0)))
  /\ (to_Q (float_of_decimal 3 0) == 3)%Q
  /\ (to_Q (float_of_decimal 10 0) == 10)%Q.
Proof.
  assert (E : compute_lagrange_polynomial
                [(Q2Qc 0, Q2Qc 1); (Q2Qc 1, Q2Qc 2); (Q2Qc 2, Q2Qc 5)]
              = Returns (Poly [Q2Qc 1; Q2Qc 0; Q2Qc 1])).
  { apply returns_poly_eqb. vm_compute. reflexivity. }
  split; [exact E|]. split; [|split; vm_compute; reflexivity].
  unfold interpolate_lagrange.
  cbn [bind get_points get_points_from entry_x entry_y app].
  match goal with
  | |- context [compute_lagrange_polynomial ?l] =>
    replace (compute_lagrange_polynomial l)
      with (Returns (Poly [Q2Qc 1; Q2Qc 0; Q2Qc 1])) by (symmetry; exact E)
  end.
  vm_compute. reflexivity.
Qed.

(** C4: for pairwise distinct abscissas, permuting the points does not
    change what the builder returns; with two or more points that is a
    polynomial in canonical form. *)
Theorem C4_permutation_invariant (points points' : list point) :
  NoDup (map fst points) -> Permutation points points' ->
  compute_lagrange_polynomial points' = compute_lagrange_polynomial points
  /\ ((2 <= List.length points)%nat ->
      exists p, compute_lagrange_polynomial points = Returns (Poly p)
                /\ normalize p = p).
Proof.
  intros Hnd Hperm.
  assert (Hlen : List.length points' = List.length points)
    by (symmetry; apply Permutation_length; assumption).
  destruct (le_lt_dec 2 (List.length points)) as [Hn|Hn].
  - assert (Hnd' : NoDup (map fst points')).
    { apply Permutation_NoDup with (l := map fst points); [|assumption].
      apply Permutation_map. assumption. }
    destruct (compute_lagrange_polynomial_interpolates points Hn Hnd)
      as [S [E [LS HS]]].
    destruct (compute_lagrange_polynomial_interpolates points') as [S' [E' [LS' HS']]];
      [lia | assumption |].
    rewrite E, E'. split.
    + f_equal. f_equal. apply normalize_unique with (rs := map fst points).
      * assumption.
      * rewrite length_map. change (List.length S' <= List.length points)%nat.
        rewrite <- Hlen. exact LS'.
      * rewrite length_map. exact LS.
      * intros r Hr. apply in_map_iff in Hr. destruct Hr as [[x y] [Ex Hin]].
        simpl in Ex. subst x.
        rewrite (HS r y Hin). apply HS'.
        apply Permutation_in with (l := points); assumption.
    + intros _. exists (normalize S). split; [reflexivity | apply normalize_idempotent].
  - split; [|lia].
    destruct points as [|p [|q ps]]; [| |simpl in Hn; lia].
    + apply Permutation_nil in Hperm. subst points'. reflexivity.
    + apply Permutation_length_1_inv in Hperm. subst points'. reflexivity.
Qed.

(** C4 at the points (0,1), (1,2), (2,5) with the first two swapped. *)
Lemma C4_permutation_invariant_witness :
  compute_lagrange_polynomial [(Q2Qc 1, Q2Qc 2); (Q2Qc 0, Q2Qc 1); (Q2Qc 2, Q2Qc 5)]
  = compute_lagrange_polynomial [(Q2Qc 0, Q2Qc 1); (Q2Qc 1, Q2Qc 2); (Q2Qc 2, Q2Qc 5)].
Proof.
  apply (@C4_permutation_invariant
           [(Q2Qc 0, Q2Qc 1); (Q2Qc 1, Q2Qc 2); (Q2Qc 2, Q2Qc 5)]
           [(Q2Qc 1, Q2Qc 2); (Q2Qc 0, Q2Qc 1); (Q2Qc 2, Q2Qc 5)]).
  - simpl. repeat constructor; simpl; intros H;
      repeat (destruct H as [H|H]; [apply (f_equal this) in H; vm_compute in H; discriminate|]);
      exact H.
  - apply perm_swap.
Defined.

(** C5, at the failing input: no single point yields a polynomial; the
    builder computes the term with floats.  For the point (0, 1/3) it
    returns the float nearest to 1/3; substituting any [x] leaves that
    float, and its value is not 1/3. *)
Theorem C5_single_point_is_a_float :
  (forall x0 y0 p, compute_lagrange_polynomial [(x0, y0)] <> Returns (Poly p))
  /\ let f := S754_finite false 6004799503160661 (-54) in
     compute_lagrange_polynomial [(Q2Qc 0, Q2Qc (1 # 3))] = Returns (FloatNum f)
     /\ (forall x, subs (FloatNum f) x = FloatNum f)
     /\ ~ (to_Q f == 1 # 3)%Q.
Proof.
  split.
  - intros x0 y0 p. rewrite compute_lagrange_polynomial_single.
    destruct (float_of_Fraction y0) as [g| | |]; simpl; try discriminate.
    destruct (is_finite _); discriminate.
  - split; [|split].
    + vm_compute. reflexivity.
    + reflexivity.
    + intros H. vm_compute in H. discriminate.
Qed.





End BuilderClaims.

(** ** Dates *)

Section CalendarFacts.

Lemma days_before_year_succ (y : Z) :
  days_before_year (y + 1)
  = days_before_year y + 365 + (if is_leap y then 1 else 0).
Proof.
  unfold days_before_year, is_leap.
  replace (y + 1 - 1) with y by lia.
  destruct (y mod 4 =? 0) eqn:E4; destruct (y mod 100 =? 0) eqn:E100;
    destruct (y mod 400 =? 0) eqn:E400; simpl;
    rewrite ?Z.eqb_eq, ?Z.eqb_neq in *;
    Z.div_mod_to_equations; lia.
Qed.

Lemma days_before_year_mono (y1 y2 : Z) :
  y1 <= y2 -> days_before_year y1 <= days_before_year y2.
Proof.
  unfold days_before_year. intros H. Z.div_mod_to_equations. lia.
Qed.

Lemma days_before_year_bound (y : Z) :
  1 <= y <= 9999 -> 0 <= days_before_year y <= 3659268.
Proof.
  unfold days_before_year. intros H. Z.div_mod_to_equations. lia.
Qed.

Lemma valid_date_fields (y m d : Z) :
  valid_date y m d = true ->
  1 <= y <= 9999 /\ 1 <= m <= 12 /\ 1 <= d <= days_in_month y m.
Proof.
  unfold valid_date. rewrite !andb_true_iff, !Z.leb_le. tauto.
Qed.

Ltac month_cases m H :=
  let E := fresh "E" in
  assert (E : m = 1 \/ m = 2 \/ m = 3 \/ m = 4 \/ m = 5 \/ m = 6 \/ m = 7
              \/ m = 8 \/ m = 9 \/ m = 10 \/ m = 11 \/ m = 12) by lia;
  clear H;
  repeat (destruct E as [E|E]; [subst m|]); [..|subst m].

Ltac table_values :=
  repeat match goal with
  | |- context [nth (Z.to_nat ?m) ?T 0] =>
      let v := eval vm_compute in (nth (Z.to_nat m) T 0) in
      change (nth (Z.to_nat m) T 0) with v
  | H : context [nth (Z.to_nat ?m) ?T 0] |- _ =>
      let v := eval vm_compute in (nth (Z.to_nat m) T 0) in
      change (nth (Z.to_nat m) T 0) with v in H
  end;
  cbn [andb orb negb Z.eqb Z.ltb Z.compare Pos.compare Pos.compare_cont Pos.eqb] in *.

(** A valid day of the year lies within the year. *)
Lemma day_of_year_bounds (y m d : Z) :
  1 <= m <= 12 -> 1 <= d <= days_in_month y m ->
  1 <= days_before_month y m + d <= 365 + (if is_leap y then 1 else 0).
Proof.
  intros Hm Hd. unfold days_in_month, days_before_month in *.
  month_cases m Hm; table_values; destruct (is_leap y); lia.
Qed.

(** Within a year, an earlier month ends before a later month starts. *)
Lemma month_order (y m1 d1 m2 : Z) :
  1 <= m1 <= 12 -> 1 <= m2 <= 12 -> 1 <= d1 <= days_in_month y m1 -> m1 < m2 ->
  days_before_month y m1 + d1 <= days_before_month y m2.
Proof.
  intros H1 H2 Hd Hlt. unfold days_in_month, days_before_month in *.
  month_cases m1 H1; month_cases m2 H2; table_values; destruct (is_leap y); lia.
Qed.

(** The ordinal is strictly increasing in calendar order. *)
Lemma toordinal_lt (a b : date) :
  valid a -> valid b -> date_lt a b -> toordinal a < toordinal b.
Proof.
  unfold valid, toordinal, ymd2ord. intros Ha Hb Hlt.
  apply valid_date_fields in Ha. apply valid_date_fields in Hb.
  destruct a as [y1 m1 d1], b as [y2 m2 d2]. unfold date_lt in Hlt. simpl in *.
  destruct Ha as [Hy1 [Hm1 Hd1]]. destruct Hb as [Hy2 [Hm2 Hd2]].
  pose proof (day_of_year_bounds y1 Hm1 Hd1) as B1.
  pose proof (day_of_year_bounds y2 Hm2 Hd2) as B2.
  destruct Hlt as [Hy | [[Ey Hm] | [Ey [Em Hd]]]].
  - pose proof (days_before_year_succ y1) as S1.
    assert (M : days_before_year (y1 + 1) <= days_before_year y2)
      by (apply days_before_year_mono; lia).
    destruct (is_leap y1), (is_leap y2); lia.
  - subst y2. pose proof (month_order y1 Hm1 Hm2 Hd1 Hm).
    destruct (is_leap y1); lia.
  - subst y2 m2. lia.
Qed.

Lemma toordinal_bound (a : date) :
  valid a -> 1 <= toordinal a <= 3659634.
Proof.
  unfold valid, toordinal, ymd2ord. intros Ha.
  apply valid_date_fields in Ha. destruct a as [y m d]. simpl in *.
  destruct Ha as [Hy [Hm Hd]].
  pose proof (day_of_year_bounds y Hm Hd) as B.
  pose proof (days_before_year_bound Hy).
  destruct (is_leap y); lia.
Qed.

Variable nonascii_decimal : N -> option digit.

Lemma datetime_valid (y m d : Z) (t : date) :
  datetime y m d = Returns t -> valid t.
Proof.
  unfold datetime, valid. destruct (valid_date y m d) eqn:E; [|discriminate].
  intros H. inversion H. subst t. exact E.
Qed.

Lemma datetime_cases (y m d : Z) :
  datetime y m d = Raises ValueError
  \/ exists t, datetime y m d = Returns t /\ valid t.
Proof.
  unfold datetime, valid. destruct (valid_date y m d) eqn:E.
  - right. eexists. split; [reflexivity | exact E].
  - left. reflexivity.
Qed.

(** [strptime] raises ValueError or returns a valid date. *)
Lemma strptime_cases (s : str) :
  strptime nonascii_decimal s = Raises ValueError
  \/ exists t, strptime nonascii_decimal s = Returns t /\ valid t.
Proof.
  unfold strptime.
  destruct (format_regex_match nonascii_decimal s) as [[[[y m] d] rest]|];
    [|left; reflexivity].
  destruct rest; [apply datetime_cases | left; reflexivity].
Qed.

Lemma strptime_valid (s : str) (t : date) :
  strptime nonascii_decimal s = Returns t -> valid t.
Proof.
  intros H. destruct (strptime_cases s) as [E|[t' [E V]]]; rewrite E in H.
  - discriminate.
  - inversion H. subst t'. exact V.
Qed.

(** [date_to_num] is the ordinal minus the ordinal of 2002-01-01. *)
Lemma date_to_num_strptime (s : str) :
  date_to_num nonascii_decimal s
  = (t <- strptime nonascii_decimal s ;;
     Returns (PyInt (toordinal t - 730851)))%py.
Proof. reflexivity. Qed.

Lemma date_to_num_cases (s : str) :
  date_to_num nonascii_decimal s = Raises ValueError
  \/ exists z, date_to_num nonascii_decimal s = Returns (PyInt z)
               /\ -730850 <= z <= 2928783.
Proof.
  rewrite date_to_num_strptime.
  destruct (strptime_cases s) as [E|[t [E V]]]; rewrite E; simpl.
  - left. reflexivity.
  - right. eexists. split; [reflexivity|].
    pose proof (toordinal_bound V). lia.
Qed.

End CalendarFacts.

(** C9: for two texts that [strptime] reads as dates [a] and [b], with [a]
    before [b] in calendar order, [date_to_num] returns the day offsets of
    [a] and [b] from 2002-01-01, and the first is smaller. *)
Theorem C9_date_to_num_order_preserving
  (nonascii_decimal : N -> option digit) (s1 s2 : str) (a b : date) :
  strptime nonascii_decimal s1 = Returns a ->
  strptime nonascii_decimal s2 = Returns b ->
  date_lt a b ->
  exists n1 n2,
    date_to_num nonascii_decimal s1 = Returns (PyInt n1)
    /\ date_to_num nonascii_decimal s2 = Returns (PyInt n2)
    /\ n1 = toordinal a - toordinal (Date 2002 1 1)
    /\ n2 = toordinal b - toordinal (Date 2002 1 1)
    /\ n1 < n2.
Proof.
  intros Ha Hb Hlt.
  pose proof (strptime_valid _ _ Ha) as Va.
  pose proof (strptime_valid _ _ Hb) as Vb.
  pose proof (toordinal_lt Va Vb Hlt) as Hord.
  exists (toordinal a - toordinal (Date 2002 1 1)),
         (toordinal b - toordinal (Date 2002 1 1)).
  rewrite !date_to_num_strptime, Ha, Hb. simpl.
  repeat split. lia.
Qed.

(** C9 at the last day of 2002 and the first day of 2003. *)
Lemma C9_date_to_num_order_preserving_witness :
  exists n1 n2,
    date_to_num (fun _ => None) (of_string "2002-12-31") = Returns (PyInt n1)
    /\ date_to_num (fun _ => None) (of_string "2003-01-01") = Returns (PyInt n2)
    /\ n1 = toordinal (Date 2002 12 31) - toordinal (Date 2002 1 1)
    /\ n2 = toordinal (Date 2003 1 1) - toordinal (Date 2002 1 1)
    /\ n1 < n2.
Proof.
  apply (@C9_date_to_num_order_preserving (fun _ => None)
           (of_string "2002-12-31") (of_string "2003-01-01")
           (Date 2002 12 31) (Date 2003 1 1)).
  - reflexivity.
  - reflexivity.
  - left. simpl. lia.
Defined.

(** ** The numeric evaluator *)

Section NumericFacts.

Variable z : Z.
Variable xs : list Z.
Variable ys : list float.

Let n : nat := List.length xs.

Lemma lagrange_interpolation_loops (x : pyval) (x_data y_data : list pyval) :
  lagrange_interpolation x x_data y_data
  = for_each (range (List.length x_data)) (sum_body x x_data y_data) (PyInt 0).
Proof. reflexivity. Qed.

Lemma getitem_map (A : Type) (f : A -> pyval) (l : list A) (d : A) (j : nat) :
  (j < List.length l)%nat -> getitem (map f l) j = Returns (f (nth j l d)).
Proof.
  intros H. unfold getitem.
  destruct (nth_error (map f l) j) as [v|] eqn:E.
  - rewrite <- (nth_error_nth _ _ (f d) E). rewrite map_nth. reflexivity.
  - apply nth_error_None in E. rewrite length_map in E. lia.
Qed.

Lemma weight_body_step (i j : nat) (N D : Z) :
  (i < n)%nat -> (j < n)%nat ->
  weight_body (PyInt z) (map PyInt xs) i (PyInt N, PyInt D) j
  = Returns (PyInt (fst (weight_step z xs i (N, D) j)),
             PyInt (snd (weight_step z xs i (N, D) j))).
Proof.
  intros Hi Hj. unfold weight_body, weight_step.
  destruct (i =? j)%nat; simpl; [reflexivity|].
  rewrite (@getitem_map Z PyInt xs 0 j Hj), (@getitem_map Z PyInt xs 0 i Hi).
  reflexivity.
Qed.

Lemma weight_loop (i : nat) (js : list nat) :
  (i < n)%nat -> Forall (fun j => (j < n)%nat) js ->
  forall N D,
    for_each js (weight_body (PyInt z) (map PyInt xs) i) (PyInt N, PyInt D)
    = Returns (PyInt (fst (fold_left (weight_step z xs i) js (N, D))),
               PyInt (snd (fold_left (weight_step z xs i) js (N, D)))).
Proof.
  intros Hi Hjs. induction Hjs as [|j js Hj _ IH]; intros N D; cbn [for_each fold_left].
  - reflexivity.
  - rewrite (weight_body_step N D Hi Hj). cbn [bind]. rewrite IH.
    destruct (weight_step z xs i (N, D) j); reflexivity.
Qed.

Lemma range_lt_length : Forall (fun j => (j < n)%nat) (range n).
Proof.
  apply Forall_forall. intros j Hj. apply in_seq in Hj. lia.
Qed.

Lemma float_of_int_0 : float_of_int 0 = Returns (S754_zero false).
Proof. vm_compute. reflexivity. Qed.

Lemma sum_body_step (i : nat) (acc : pyval) :
  (i < n)%nat -> (i < List.length ys)%nat -> weight_ok z xs i -> is_number acc ->
  exists f, sum_body (PyInt z) (map PyInt xs) (map PyFloat ys) acc i
            = Returns (PyFloat f).
Proof.
  intros Hi Hy [a [g [Ea [Eg Hg]]]] Hacc. unfold sum_body.
  rewrite length_map. fold n.
  rewrite (weight_loop Hi range_lt_length).
  unfold weight in Ea, Eg. fold n in Ea, Eg.
  cbn [bind]. rewrite (@getitem_map float PyFloat ys (S754_zero false) i Hy).
  cbn [bind py_mul]. rewrite Ea. cbn [bind py_truediv]. rewrite Eg.
  cbn [bind]. unfold float_truediv. rewrite Hg. cbn [bind].
  destruct Hacc as [E|[f E]]; subst acc; cbn [py_add].
  - rewrite float_of_int_0. cbn [bind]. eexists. reflexivity.
  - eexists. reflexivity.
Qed.

Lemma sum_loop (ks : list nat) :
  Forall (fun i => (i < n)%nat /\ (i < List.length ys)%nat /\ weight_ok z xs i) ks ->
  forall acc, is_number acc ->
  exists acc', for_each ks (sum_body (PyInt z) (map PyInt xs) (map PyFloat ys)) acc
               = Returns acc'
    /\ (ks = [] /\ acc' = acc \/ exists f, acc' = PyFloat f).
Proof.
  induction 1 as [|i ks [Hi [Hy Hw]] _ IH]; intros acc Hacc.
  - exists acc. split; [reflexivity | left; auto].
  - destruct (sum_body_step Hi Hy Hw Hacc) as [f E].
    destruct (IH (PyFloat f)) as [acc' [E' H']]; [right; eexists; reflexivity|].
    exists acc'. split.
    + simpl. rewrite E. exact E'.
    + right. destruct H' as [[_ H']|H']; [exists f; exact H' | exact H'].
Qed.

(** With at least one sample, as many ordinates as abscissas and
    convertible weights, the evaluator returns a float. *)
Lemma lagrange_interpolation_returns :
  (1 <= n)%nat -> List.length ys = n ->
  (forall i, (i < n)%nat -> weight_ok z xs i) ->
  exists f, lagrange_interpolation (PyInt z) (map PyInt xs) (map PyFloat ys)
            = Returns (PyFloat f).
Proof.
  intros Hn Hlen Hw. rewrite lagrange_interpolation_loops, length_map. fold n.
  destruct (@sum_loop (range n)) with (acc := PyInt 0) as [acc' [E H]].
  - apply Forall_forall. intros i Hi. apply in_seq in Hi.
    repeat split; [lia | lia | apply Hw; lia].
  - left. reflexivity.
  - rewrite E. destruct H as [[Hnil _]|[f Hf]].
    + exfalso. unfold range in Hnil. destruct n; [lia | discriminate].
    + exists f. rewrite Hf. reflexivity.
Qed.

(** The numerator is a product of at most [length js] differences. *)
Lemma weight_numerator_bound (B : Z) (i : nat) (js : list nat) :
  1 <= B -> (forall j, Z.abs (z - nth j xs 0) <= B) ->
  forall N D,
    Z.abs (fst (fold_left (weight_step z xs i) js (N, D)))
    <= Z.abs N * B ^ Z.of_nat (List.length js).
Proof.
  intros HB Hd. induction js as [|j js IH]; intros N D.
  - simpl. lia.
  - cbn [fold_left List.length]. rewrite Nat2Z.inj_succ, Z.pow_succ_r by lia.
    assert (HP : 0 < B ^ Z.of_nat (List.length js)) by (apply Z.pow_pos_nonneg; lia).
    unfold weight_step at 2. destruct (i =? j)%nat.
    + eapply Z.le_trans; [apply IH|]. nia.
    + eapply Z.le_trans; [apply IH|]. cbn [fst snd].
      rewrite Z.abs_mul. specialize (Hd j).
      pose proof (Z.abs_nonneg N). nia.
Qed.

(** The denominator does not depend on the target abscissa. *)
Lemma weight_denominator_fixed (z' : Z) (i : nat) (js : list nat) :
  forall N N' D,
    snd (fold_left (weight_step z xs i) js (N, D))
    = snd (fold_left (weight_step z' xs i) js (N', D)).
Proof.
  induction js as [|j js IH]; intros N N' D; simpl; [reflexivity|].
  unfold weight_step at 2 4. destruct (i =? j)%nat; simpl; apply IH.
Qed.

End NumericFacts.

Section ForexClaims.

Variable nonascii_decimal : N -> option digit.

Lemma forex_data_value : forex_data nonascii_decimal = Returns the_forex_data.
Proof. vm_compute. reflexivity. Qed.

Lemma sample_check_spec (fd : ForexData) (i : nat) :
  sample_check nonascii_decimal fd i = true ->
  exists f y,
    nth i (exchange_rates fd) (PyInt 0) = PyFloat y
    /\ sample_result nonascii_decimal fd i = Returns (PyFloat f)
    /\ is_finite f = true
    /\ (abs_error f (to_Q y) <= tolerance)%Q
    /\ (abs_error f (nth i sample_rate_digits 0%Z # 10000) <= tolerance)%Q.
Proof.
  unfold sample_check.
  destruct (sample_result nonascii_decimal fd i) as [[|f| |]| | |]; try discriminate.
  destruct (nth i (exchange_rates fd) (PyInt 0)) as [|y| |]; try discriminate.
  rewrite !andb_true_iff, !Qle_bool_iff. intros [[H1 H2] H3].
  exists f, y. auto.
Qed.

Lemma sample_checks :
  forallb (sample_check nonascii_decimal the_forex_data) (range 24) = true.
Proof. vm_compute. reflexivity. Qed.

End ForexClaims.

(** C7: at the date of each of the 24 samples the evaluator returns a
    finite float within 1e-9 of the sample's rate (of the stored float and
    of its decimal literal); for "2002-01-01" it returns the float 26.5850
    itself, and the message shows 26.5850. *)
Theorem C7_samples_reproduced (nonascii_decimal : N -> option digit) :
  exists fd,
    forex_data nonascii_decimal = Returns fd
    /\ List.length (dates fd) = 24%nat
    /\ Forall (fun i =>
         exists f y,
           nth i (exchange_rates fd) (PyInt 0) = PyFloat y
           /\ sample_result nonascii_decimal fd i = Returns (PyFloat f)
           /\ is_finite f = true
           /\ (abs_error f (to_Q y) <= 1 # 1000000000)%Q
           /\ (abs_error f (nth i sample_rate_digits 0%Z # 10000) <= 1 # 1000000000)%Q)
         (range 24)
    /\ (x <- date_to_num nonascii_decimal (of_string "2002-01-01") ;;
        lagrange_interpolation x (date_values fd) (exchange_rates fd))%py
       = Returns (rate 265850)
    /\ interpolate_exchange_rate nonascii_decimal fd (of_string "2002-01-01")
       = Returns (of_string "Interpolated exchange rate for 2002-01-01: 26.5850").
Proof.
  exists the_forex_data. split; [apply forex_data_value|].
  split; [reflexivity|]. split; [|split].
  - apply Forall_forall. intros i Hi.
    apply sample_check_spec.
    pose proof (sample_checks nonascii_decimal) as H.
    rewrite forallb_forall in H. apply H. exact Hi.
  - vm_compute. reflexivity.
  - vm_compute. reflexivity.
Qed.

(** C8, counterexample: with empty [x_data] the evaluator returns the
    integer 0, not the failure EmptyInput. *)
Lemma C8_counterexample :
  lagrange_interpolation (PyInt 5) [] [] = Returns (PyInt 0)
  /\ lagrange_interpolation (PyInt 5) [] [] <> Failed EmptyInput.
Proof.
  split; [reflexivity | discriminate].
Qed.

(** C8, as amended: with empty [x_data] the evaluator returns the integer
    0, for every target and every [y_data], and reports no failure. *)
Theorem C8_empty_input_returns_zero (x : pyval) (y_data : list pyval) :
  lagrange_interpolation x [] y_data = Returns (PyInt 0).
Proof. reflexivity. Qed.

Section ExchangeRateTotal.

Variable nonascii_decimal : N -> option digit.

Lemma sample_days_range (j : nat) : 0 <= nth j sample_days 0 <= 699.
Proof.
  assert (H : Forall (fun v => 0 <= v <= 699) sample_days)
    by (unfold sample_days; repeat constructor; lia).
  destruct (nth_in_or_default j sample_days 0) as [Hin|E].
  - rewrite Forall_forall in H. apply H. exact Hin.
  - rewrite E. lia.
Qed.

Lemma sample_days_NoDup : NoDup (map PyInt sample_days).
Proof.
  apply Finite.Injective_map_NoDup.
  - intros a b H. inversion H. reflexivity.
  - unfold sample_days.
    repeat (constructor;
            [simpl; intros H;
             repeat (destruct H as [H|H]; [discriminate|]); exact H|]).
    constructor.
Qed.

Lemma sample_denominators :
  forallb (weight_denominator_ok sample_days) (range 24) = true.
Proof. vm_compute. reflexivity. Qed.

Lemma float_of_int_returns (v : Z) :
  Z.abs v <= 4194304 ^ 24 -> exists a, float_of_int v = Returns a.
Proof.
  intros H. unfold float_of_int.
  assert (B : 4194304 ^ 24 < 2 ^ 1024 - 2 ^ 970) by (vm_compute; reflexivity).
  destruct (Z.leb_spec (2 ^ 1024 - 2 ^ 970) (Z.abs v)) as [Hle|Hlt].
  - exfalso. apply (Z.lt_irrefl (4194304 ^ 24)).
    eapply Z.lt_le_trans; [exact B|]. eapply Z.le_trans; [exact Hle | exact H].
  - eexists. reflexivity.
Qed.

Lemma sample_numerator_converts (z : Z) (i : nat) :
  -730850 <= z <= 2928783 ->
  exists a, float_of_int (fst (weight z sample_days i)) = Returns a.
Proof.
  intros Hz. apply float_of_int_returns.
  pose proof (@weight_numerator_bound z sample_days 4194304 i
                (range (List.length sample_days))) as H.
  assert (H1 : 1 <= 4194304) by lia.
  assert (H2 : forall j, Z.abs (z - nth j sample_days 0) <= 4194304).
  { intros j. pose proof (sample_days_range j). lia. }
  specialize (H H1 H2 1 1).
  assert (L : List.length (range (List.length sample_days)) = 24%nat) by reflexivity.
  rewrite L in H. rewrite Z.mul_1_l in H. exact H.
Qed.

Lemma weight_denominator_ok_spec (xs : list Z) (i : nat) :
  weight_denominator_ok xs i = true ->
  exists g, float_of_int (snd (weight 0 xs i)) = Returns g /\ is_zero g = false.
Proof.
  unfold weight_denominator_ok.
  destruct (float_of_int (snd (weight 0 xs i))) as [g| | |]; try discriminate.
  intros H. exists g. split; [reflexivity|]. apply negb_true_iff. exact H.
Qed.

Lemma sample_denominator_converts (z : Z) (i : nat) :
  (i < 24)%nat ->
  exists g, float_of_int (snd (weight z sample_days i)) = Returns g
            /\ is_zero g = false.
Proof.
  intros Hi.
  assert (ED : snd (weight z sample_days i) = snd (weight 0 sample_days i))
    by apply weight_denominator_fixed.
  rewrite ED. apply weight_denominator_ok_spec.
  pose proof sample_denominators as HD.
  rewrite forallb_forall in HD. apply HD. apply in_seq. lia.
Qed.

(** For every day number a date can have, each of the 24 iterations
    converts its numerator and divides by a non-zero float. *)
Lemma sample_weight_ok (z : Z) (i : nat) :
  -730850 <= z <= 2928783 -> (i < 24)%nat -> weight_ok z sample_days i.
Proof.
  intros Hz Hi.
  destruct (sample_numerator_converts i Hz) as [a Ea].
  destruct (sample_denominator_converts z Hi) as [g [Eg Hg]].
  exists a, g. auto.
Qed.

Lemma sample_rates_floats :
  sample_rates = map PyFloat (map (fun d => float_of_decimal d 4) sample_rate_digits).
Proof. unfold sample_rates, rate. rewrite map_map. reflexivity. Qed.

Lemma sample_interpolation_returns (z : Z) :
  -730850 <= z <= 2928783 ->
  exists f, lagrange_interpolation (PyInt z) (map PyInt sample_days) sample_rates
            = Returns (PyFloat f).
Proof.
  intros Hz. rewrite sample_rates_floats.
  apply lagrange_interpolation_returns.
  - simpl. lia.
  - reflexivity.
  - intros i Hi. apply sample_weight_ok; [exact Hz | exact Hi].
Qed.

End ExchangeRateTotal.

(** C10: for every text, [interpolate_exchange_rate] on the series of the
    application returns a string.  Either [date_to_num] raises ValueError,
    which is caught, and the invalid-date message is returned; or the text
    is a date, the evaluator returns a float without raising, and the
    formatted message is returned.  The day numbers of the series are
    pairwise distinct. *)
Theorem C10_interpolate_exchange_rate_returns_a_string
  (nonascii_decimal : N -> option digit) (target_date_str : str) :
  exists fd,
    forex_data nonascii_decimal = Returns fd
    /\ NoDup (date_values fd)
    /\ ((date_to_num nonascii_decimal target_date_str = Raises ValueError
         /\ interpolate_exchange_rate nonascii_decimal fd target_date_str
            = Returns invalid_date_message)
        \/ exists z f,
            date_to_num nonascii_decimal target_date_str = Returns (PyInt z)
            /\ lagrange_interpolation (PyInt z) (date_values fd) (exchange_rates fd)
               = Returns (PyFloat f)
            /\ interpolate_exchange_rate nonascii_decimal fd target_date_str
               = Returns (of_string "Interpolated exchange rate for "
                          ++ target_date_str ++ of_string ": " ++ format_4f f)).
Proof.
  exists the_forex_data. split; [apply forex_data_value|].
  split; [apply sample_days_NoDup|].
  unfold interpolate_exchange_rate.
  destruct (date_to_num_cases nonascii_decimal target_date_str) as [E|[z [E Hz]]].
  - left. rewrite E. split; reflexivity.
  - right. destruct (sample_interpolation_returns Hz) as [f Ef].
    exists z, f. split; [exact E|]. split; [exact Ef|].
    rewrite E. cbn [bind]. cbn [date_values exchange_rates the_forex_data].
    rewrite Ef. reflexivity.
Qed.

(** * Further properties *)

(** ** The symbolic builder *)

Section BuilderExtras.

Local Open Scope Qc_scope.

(** For two or more points of pairwise distinct abscissas the builder
    returns a polynomial in canonical form with at most as many coefficients
    as there are points: its degree is below the number of points. *)
Theorem builder_canonical_degree_bound (points : list point) :
  (2 <= List.length points)%nat -> NoDup (map fst points) ->
  exists p,
    compute_lagrange_polynomial points = Returns (Poly p)
    /\ normalize p = p
    /\ (List.length p <= List.length points)%nat.
Proof.
  intros Hn Hnd.
  destruct (compute_lagrange_polynomial_interpolates points Hn Hnd) as [S [E [LS _]]].
  exists (normalize S). split; [exact E|]. split; [apply normalize_idempotent|].
  eapply Nat.le_trans; [apply length_normalize | exact LS].
Qed.

Lemma two_points_NoDup : NoDup (map fst [(Q2Qc 0, Q2Qc 1); (Q2Qc 1, Q2Qc 3)]).
Proof.
  simpl. repeat constructor; simpl; intros H;
    repeat (destruct H as [H|H];
            [apply (f_equal this) in H; vm_compute in H; discriminate|]);
    exact H.
Qed.

(** The degree bound at the points (0,1) and (1,3). *)
Lemma builder_canonical_degree_bound_witness :
  exists p,
    compute_lagrange_polynomial [(Q2Qc 0, Q2Qc 1); (Q2Qc 1, Q2Qc 3)] = Returns (Poly p)
    /\ normalize p = p
    /\ (List.length p <= 2)%nat.
Proof.
  apply (@builder_canonical_degree_bound [(Q2Qc 0, Q2Qc 1); (Q2Qc 1, Q2Qc 3)]).
  - simpl. lia.
  - exact two_points_NoDup.
Defined.

(** Exact interpolation at the points (0,1) and (1,3). *)
Lemma interpolation_exact_for_two_or_more_points_witness :
  exists e,
    compute_lagrange_polynomial [(Q2Qc 0, Q2Qc 1); (Q2Qc 1, Q2Qc 3)] = Returns e
    /\ forall x y, In (x, y) [(Q2Qc 0, Q2Qc 1); (Q2Qc 1, Q2Qc 3)] ->
                   subs e x = sym_simplify (Rational y).
Proof.
  apply (@interpolation_exact_for_two_or_more_points
           [(Q2Qc 0, Q2Qc 1); (Q2Qc 1, Q2Qc 3)]).
  - simpl. lia.
  - exact two_points_NoDup.
Defined.

Lemma samples_abscissas (q : poly) (xs : list Qc) : map fst (samples q xs) = xs.
Proof.
  unfold samples. rewrite map_map. simpl. apply map_id.
Qed.

(** A polynomial of at most [n] coefficients through the samples of [q]
    at [n] distinct abscissas has the canonical form of [q]. *)
Lemma samples_interpolant (q S : poly) (xs : list Qc) :
  NoDup xs -> (List.length q <= List.length xs)%nat ->
  (List.length S <= List.length (samples q xs))%nat ->
  (forall x y, In (x, y) (samples q xs) -> eval S x = y) ->
  normalize S = normalize q.
Proof.
  intros Hnd Hq LS HS.
  assert (Hlen : List.length (samples q xs) = List.length xs)
    by (unfold samples; apply length_map).
  apply normalize_unique with (rs := xs); try assumption.
  - rewrite <- Hlen. exact LS.
  - intros r Hr. apply HS. unfold samples. apply in_map_iff.
    exists r. split; [reflexivity | exact Hr].
Qed.

(** The builder recovers a polynomial from its samples: sampling a
    polynomial of at most [n] coefficients at [n >= 2] distinct abscissas
    and interpolating gives that polynomial back, in canonical form. *)
Theorem builder_reproduces_polynomial (q : poly) (xs : list Qc) :
  (2 <= List.length xs)%nat -> NoDup xs -> (List.length q <= List.length xs)%nat ->
  compute_lagrange_polynomial (samples q xs) = Returns (Poly (normalize q)).
Proof.
  intros Hn Hnd Hq.
  destruct (compute_lagrange_polynomial_interpolates (samples q xs))
    as [S [E [LS HS]]].
  - unfold samples. rewrite length_map. exact Hn.
  - rewrite samples_abscissas. exact Hnd.
  - rewrite E. f_equal. f_equal.
    exact (samples_interpolant q S Hnd Hq LS HS).
Qed.

(** Sampling 2x + 1 at 0 and 1 and interpolating gives 2x + 1 back. *)
Lemma builder_reproduces_polynomial_witness :
  compute_lagrange_polynomial (samples [Q2Qc 1; Q2Qc 2] [Q2Qc 0; Q2Qc 1])
  = Returns (Poly (normalize [Q2Qc 1; Q2Qc 2])).
Proof.
  apply builder_reproduces_polynomial.
  - simpl. lia.
  - repeat constructor; simpl; intros H;
      repeat (destruct H as [H|H];
              [apply (f_equal this) in H; vm_compute in H; discriminate|]);
      exact H.
  - simpl. lia.
Defined.

(** A further point that already lies on the polynomial of the others
    does not change the polynomial. *)
Theorem builder_consistent_point_is_redundant
  (points : list point) (x y : Qc) (p : poly) :
  (2 <= List.length points)%nat ->
  NoDup (map fst (points ++ [(x, y)])) ->
  compute_lagrange_polynomial points = Returns (Poly p) ->
  eval p x = y ->
  compute_lagrange_polynomial (points ++ [(x, y)]) = Returns (Poly p).
Proof.
  intros Hn Hnd Hp Hxy.
  assert (Hnd0 : NoDup (map fst points)).
  { rewrite map_app in Hnd. apply NoDup_app_remove_r in Hnd. exact Hnd. }
  destruct (compute_lagrange_polynomial_interpolates points Hn Hnd0)
    as [S [E [LS HS]]].
  rewrite E in Hp. inversion Hp as [Ep]. clear Hp.
  destruct (compute_lagrange_polynomial_interpolates (points ++ [(x, y)]))
    as [S' [E' [LS' HS']]].
  - rewrite length_app. simpl. lia.
  - exact Hnd.
  - rewrite E'. f_equal. f_equal.
    rewrite <- (normalize_idempotent S).
    apply normalize_unique with (rs := map fst (points ++ [(x, y)])).
    + exact Hnd.
    + rewrite length_map. exact LS'.
    + rewrite length_map, length_app. simpl.
      pose proof (length_normalize S). lia.
    + intros r Hr. apply in_map_iff in Hr. destruct Hr as [[x' y'] [Ex Hin]].
      simpl in Ex. subst x'.
      rewrite (HS' r y' Hin), eval_normalize.
      apply in_app_or in Hin. destruct Hin as [Hin|Hin].
      * symmetry. apply HS. exact Hin.
      * destruct Hin as [Heq|[]]. inversion Heq; subst.
        rewrite ?eval_normalize. reflexivity.
Qed.

(** The points (0,1), (1,3) give 2x + 1; adding (2,5) changes nothing. *)
Lemma builder_consistent_point_is_redundant_witness :
  compute_lagrange_polynomial ([(Q2Qc 0, Q2Qc 1); (Q2Qc 1, Q2Qc 3)] ++ [(Q2Qc 2, Q2Qc 5)])
  = Returns (Poly [Q2Qc 1; Q2Qc 2]).
Proof.
  apply builder_consistent_point_is_redundant.
  - simpl. lia.
  - simpl. repeat constructor; simpl; intros H;
      repeat (destruct H as [H|H];
              [apply (f_equal this) in H; vm_compute in H; discriminate|]);
      exact H.
  - apply returns_poly_eqb. vm_compute. reflexivity.
  - apply Qc_is_canon. vm_compute. reflexivity.
Defined.

(** With two or more points the builder always returns, and what it
    returns is a polynomial exactly when the abscissas are pairwise
    distinct; otherwise it is the non-finite expression. *)
Theorem builder_polynomial_iff_distinct (points : list point) :
  (2 <= List.length points)%nat ->
  ((exists p, compute_lagrange_polynomial points = Returns (Poly p))
   <-> NoDup (map fst points))
  /\ (compute_lagrange_polynomial points = Returns NonFinite
      <-> ~ NoDup (map fst points)).
Proof.
  intros Hn.
  destruct (ListDec.NoDup_dec Qc_eq_dec (map fst points)) as [Hnd|Hdup].
  - destruct (compute_lagrange_polynomial_interpolates points Hn Hnd) as [S [E _]].
    split; split; intros H.
    + exact Hnd.
    + eexists. exact E.
    + rewrite E in H. discriminate.
    + contradiction.
  - pose proof (compute_lagrange_polynomial_duplicate points Hdup) as E.
    split; split; intros H.
    + destruct H as [p Hp]. rewrite E in Hp. discriminate.
    + contradiction.
    + exact Hdup.
    + exact E.
Qed.

(** Distinct abscissas 0 and 1 give a polynomial. *)
Lemma builder_polynomial_iff_distinct_witness :
  exists p, compute_lagrange_polynomial [(Q2Qc 0, Q2Qc 1); (Q2Qc 1, Q2Qc 3)]
            = Returns (Poly p).
Proof.
  apply (proj1 (@builder_polynomial_iff_distinct
                  [(Q2Qc 0, Q2Qc 1); (Q2Qc 1, Q2Qc 3)] (le_n 2))).
  exact two_points_NoDup.
Defined.

(** The builder raises nothing but OverflowError, and that only for a
    single point (whose ordinate is then converted to a float): for any
    other number of points it returns an expression. *)
Theorem builder_raises_only_for_one_point (points : list point) :
  (exists e, compute_lagrange_polynomial points = Returns e)
  \/ (List.length points = 1%nat
      /\ compute_lagrange_polynomial points = Raises OverflowError).
Proof.
  destruct points as [|[x0 y0] [|q ps]].
  - left. eexists. reflexivity.
  - destruct (compute_lagrange_polynomial_outcomes [(x0, y0)]) as [H|H].
    + left. exact H.
    + right. split; [reflexivity | exact H].
  - left. eexists. apply compute_lagrange_polynomial_interpolant. simpl. lia.
Qed.

End BuilderExtras.

(** ** Reading the points *)

Section GetPointsExtras.

Lemma get_points_from_parsed (points acc : list point) :
  get_points_from (map parsed points) acc = Returns (Some (acc ++ points)).
Proof.
  revert acc. induction points as [|[x y] points IH]; intros acc; simpl.
  - rewrite app_nil_r. reflexivity.
  - rewrite IH. rewrite <- app_assoc. reflexivity.
Qed.

(** When every entry parses, [get_points] returns the points of the
    frames, one per frame and in the order of the frames. *)
Theorem get_points_all_parsed (points : list point) :
  get_points (map parsed points) = Returns (Some points).
Proof. apply get_points_from_parsed. Qed.

Lemma get_points_from_app (fs gs : list frame) :
  forall acc acc',
    get_points_from fs acc = Returns (Some acc') ->
    get_points_from (fs ++ gs) acc = get_points_from gs acc'.
Proof.
  induction fs as [|f fs IH]; intros acc acc' H; simpl in *.
  - inversion H. reflexivity.
  - destruct (bind (entry_x f) _) as [p|[]| |]; try discriminate.
    apply IH. exact H.
Qed.

(** The first frame that does not parse decides: after frames that
    parse, a frame whose parse raises ValueError makes [get_points] return
    [None], and one that raises another exception lets it escape; the
    frames after it are not read. *)
Theorem get_points_first_failure
  (points : list point) (bad : frame) (rest : list frame) (e : exn) :
  frame_outcome bad = Raises e ->
  get_points (map parsed points ++ bad :: rest)
  = match e with
    | ValueError => Returns None
    | _ => Raises e
    end.
Proof.
  intros Hbad. unfold get_points.
  rewrite (@get_points_from_app (map parsed points) (bad :: rest) [] points
             (get_points_from_parsed points [])).
  simpl. unfold frame_outcome in Hbad. rewrite Hbad.
  destruct e; reflexivity.
Qed.

(** A frame whose x entry is "1/0" (ZeroDivisionError) after one good
    frame: the exception escapes, whatever the y entry and the later
    frames hold. *)
Lemma get_points_first_failure_witness :
  get_points (map parsed [(Q2Qc 1, Q2Qc 2)]
              ++ Build_frame (Raises ZeroDivisionError) (Raises ValueError)
                 :: [Build_frame (Raises ValueError) (Returns (Q2Qc 3))])
  = Raises ZeroDivisionError.
Proof.
  apply (@get_points_first_failure [(Q2Qc 1, Q2Qc 2)]
           (Build_frame (Raises ZeroDivisionError) (Raises ValueError))
           [Build_frame (Raises ValueError) (Returns (Q2Qc 3))]
           ZeroDivisionError).
  reflexivity.
Defined.

End GetPointsExtras.

(** ** Dates *)

Section DateExtras.

Variable nonascii_decimal : N -> option digit.

Lemma toordinal_upper (a : date) : valid a -> toordinal a <= 3652059.
Proof.
  unfold valid, toordinal, ymd2ord. intros Ha.
  apply valid_date_fields in Ha. destruct a as [y m d]. simpl in *.
  destruct Ha as [Hy [Hm Hd]].
  pose proof (day_of_year_bounds y Hm Hd) as B.
  assert (E9 : days_before_year 9999 = 3651694) by (vm_compute; reflexivity).
  destruct (Z.eq_dec y 9999) as [E|NE].
  - subst y. rewrite E9.
    assert (L : is_leap 9999 = false) by (vm_compute; reflexivity).
    rewrite L in B. lia.
  - pose proof (days_before_year_succ y) as S1.
    assert (M : days_before_year (y + 1) <= days_before_year 9999)
      by (apply days_before_year_mono; lia).
    destruct (is_leap y); lia.
Qed.

(** [date_to_num] raises ValueError or returns an int between -730850
    (0001-01-01) and 2921208 (9999-12-31); both ends are reached. *)
Theorem date_to_num_range (s : str) :
  (date_to_num nonascii_decimal s = Raises ValueError
   \/ exists z, date_to_num nonascii_decimal s = Returns (PyInt z)
                /\ -730850 <= z <= 2921208)
  /\ date_to_num nonascii_decimal (of_string "0001-01-01") = Returns (PyInt (-730850))
  /\ date_to_num nonascii_decimal (of_string "9999-12-31") = Returns (PyInt 2921208).
Proof.
  split; [|split; vm_compute; reflexivity].
  rewrite date_to_num_strptime.
  destruct (strptime_cases nonascii_decimal s) as [E|[t [E V]]]; rewrite E; simpl.
  - left. reflexivity.
  - right. eexists. split; [reflexivity|].
    pose proof (toordinal_bound V). pose proof (toordinal_upper V). lia.
Qed.

Lemma days_in_month_le_31 (y m : Z) : days_in_month y m <= 31.
Proof.
  unfold days_in_month. destruct ((m =? 2) && is_leap y); [lia|].
  assert (H : Forall (fun v => v <= 31) DAYS_IN_MONTH)
    by (unfold DAYS_IN_MONTH; repeat constructor; lia).
  destruct (nth_in_or_default (Z.to_nat m) DAYS_IN_MONTH 0) as [Hin|E].
  - rewrite Forall_forall in H. apply H. exact Hin.
  - rewrite E. lia.
Qed.

Lemma decimal_digit_char (v : Z) :
  0 <= v <= 9 -> decimal nonascii_decimal (digit_char v) = Some v.
Proof.
  intros H.
  assert (E : v = 0 \/ v = 1 \/ v = 2 \/ v = 3 \/ v = 4 \/ v = 5 \/ v = 6
              \/ v = 7 \/ v = 8 \/ v = 9) by lia.
  repeat (destruct E as [E|E]; [subst v; reflexivity|]). subst v. reflexivity.
Qed.

Lemma match_Y_four_digits (A : Type) (y : Z) (rest : str)
  (k : Z -> str -> option A) :
  0 <= y <= 9999 ->
  match_Y nonascii_decimal (four_digits y ++ rest) k = k y rest.
Proof.
  intros Hy. unfold match_Y, four_digits, any_decimal. cbn [app].
  rewrite !decimal_digit_char by (Z.div_mod_to_equations; lia).
  f_equal. Z.div_mod_to_equations. lia.
Qed.

(** The part of the pattern after the year, on zero-padded month and day. *)
Lemma month_day_match (y m d : Z) :
  1 <= m <= 12 -> 1 <= d <= 31 ->
  literal 45 ([45%N] ++ two_digits m ++ [45%N] ++ two_digits d) (fun s =>
    match_m s (fun m' s => literal 45 s (fun s =>
    match_d nonascii_decimal s (fun d' s => Some (y, m', d', s)))))
  = Some (y, m, d, []).
Proof.
  intros Hm Hd.
  assert (Em : m = 1 \/ m = 2 \/ m = 3 \/ m = 4 \/ m = 5 \/ m = 6 \/ m = 7
               \/ m = 8 \/ m = 9 \/ m = 10 \/ m = 11 \/ m = 12) by lia.
  assert (Ed : d = 1 \/ d = 2 \/ d = 3 \/ d = 4 \/ d = 5 \/ d = 6 \/ d = 7
               \/ d = 8 \/ d = 9 \/ d = 10 \/ d = 11 \/ d = 12 \/ d = 13
               \/ d = 14 \/ d = 15 \/ d = 16 \/ d = 17 \/ d = 18 \/ d = 19
               \/ d = 20 \/ d = 21 \/ d = 22 \/ d = 23 \/ d = 24 \/ d = 25
               \/ d = 26 \/ d = 27 \/ d = 28 \/ d = 29 \/ d = 30 \/ d = 31) by lia.
  clear Hm Hd.
  repeat (destruct Em as [Em|Em]; [subst m|]); [..|subst m];
    repeat (destruct Ed as [Ed|Ed]; [subst d; vm_compute; reflexivity|]);
    subst d; vm_compute; reflexivity.
Qed.

(** On the zero-padded text YYYY-MM-DD, [strptime] builds the date of the
    three fields (and raises ValueError exactly when the date constructor
    does). *)
Lemma strptime_iso_text (y m d : Z) :
  0 <= y <= 9999 -> 1 <= m <= 12 -> 1 <= d <= 31 ->
  strptime nonascii_decimal (iso_text y m d) = datetime y m d.
Proof.
  intros Hy Hm Hd. unfold strptime, format_regex_match, iso_text.
  rewrite match_Y_four_digits by exact Hy.
  rewrite (month_day_match y Hm Hd). reflexivity.
Qed.

(** For every valid calendar date, [date_to_num] on its zero-padded text
    YYYY-MM-DD returns the number of days from 2002-01-01 to that date. *)
Theorem date_to_num_iso_text (y m d : Z) :
  valid_date y m d = true ->
  date_to_num nonascii_decimal (iso_text y m d)
  = Returns (PyInt (ymd2ord y m d - ymd2ord 2002 1 1)).
Proof.
  intros Hv. pose proof (valid_date_fields _ _ _ Hv) as [Hy [Hm Hd]].
  assert (Hd' : 1 <= d <= 31).
  { pose proof (days_in_month_le_31 y m). lia. }
  rewrite date_to_num_strptime, strptime_iso_text by lia.
  unfold datetime. rewrite Hv. reflexivity.
Qed.

(** ... and on the text of a day that does not exist it raises ValueError. *)
Theorem date_to_num_iso_text_invalid (y m d : Z) :
  0 <= y <= 9999 -> 1 <= m <= 12 -> 1 <= d <= 31 ->
  valid_date y m d = false ->
  date_to_num nonascii_decimal (iso_text y m d) = Raises ValueError.
Proof.
  intros Hy Hm Hd Hv.
  rewrite date_to_num_strptime, strptime_iso_text by assumption.
  unfold datetime. rewrite Hv. reflexivity.
Qed.

End DateExtras.

(** The leap day of 2004, 789 days after 2002-01-01. *)
Lemma date_to_num_iso_text_witness :
  date_to_num (fun _ => None) (iso_text 2004 2 29) = Returns (PyInt 789).
Proof.
  apply (@date_to_num_iso_text (fun _ => None) 2004 2 29). reflexivity.
Defined.

(** 1900 was not a leap year, and there is no year 0. *)
Lemma date_to_num_iso_text_invalid_witness :
  date_to_num (fun _ => None) (iso_text 1900 2 29) = Raises ValueError
  /\ date_to_num (fun _ => None) (iso_text 0 1 1) = Raises ValueError.
Proof.
  split.
  - apply (@date_to_num_iso_text_invalid (fun _ => None) 1900 2 29);
      [lia | lia | lia | reflexivity].
  - apply (@date_to_num_iso_text_invalid (fun _ => None) 0 1 1);
      [lia | lia | lia | reflexivity].
Defined.

(** ** Conversion of a non-zero int to a float *)

Section FloatOfInt.

Lemma digits2_pos_size (p : positive) : digits2_pos p = Pos.size p.
Proof. induction p; simpl; congruence. Qed.

Lemma digits2_lower (p : positive) : 2 ^ (Zpos (digits2_pos p) - 1) <= Zpos p.
Proof.
  rewrite digits2_pos_size.
  pose proof (Pos.size_le p) as H.
  assert (H' : 2 ^ Zpos (Pos.size p) <= 2 * Zpos p).
  { change (2 * Zpos p) with (Zpos p~0). rewrite <- Pos2Z.inj_pow. apply Pos2Z.pos_le_pos. exact H. }
  replace (Zpos (Pos.size p)) with (Zpos (Pos.size p) - 1 + 1) in H' by lia.
  rewrite Z.pow_add_r in H' by lia. lia.
Qed.

Lemma shr_1_m (r : shr_record) : 0 <= shr_m r -> shr_m (shr_1 r) = shr_m r / 2.
Proof.
  destruct r as [m r s]. simpl. intros H.
  destruct m as [|[p|p|]|p]; simpl; try reflexivity; try lia.
  - rewrite Pos2Z.inj_xI. apply Z.div_unique with (r := 1); lia.
  - rewrite Pos2Z.inj_xO. apply Z.div_unique with (r := 0); lia.
Qed.

Lemma iter_shr_1_m (p : positive) :
  forall r, 0 <= shr_m r ->
    shr_m (iter_pos shr_1 p r) = shr_m r / 2 ^ Zpos p.
Proof.
  induction p as [p IH|p IH|]; intros r H.
  - cbn [iter_pos].
    assert (P : 0 < 2 ^ Zpos p) by (apply Z.pow_pos_nonneg; lia).
    assert (H1 : 0 <= shr_m (shr_1 r)) by (rewrite shr_1_m by exact H; apply Z.div_pos; lia).
    assert (H2 : 0 <= shr_m (iter_pos shr_1 p (shr_1 r)))
      by (rewrite IH by exact H1; apply Z.div_pos; [exact H1 | exact P]).
    rewrite IH by exact H2. rewrite IH by exact H1. rewrite shr_1_m by exact H.
    assert (E : 2 ^ Zpos p~1 = 2 * (2 ^ Zpos p * 2 ^ Zpos p)).
    { rewrite (Pos2Z.inj_xI p).
      replace (2 * Zpos p + 1) with (1 + (Zpos p + Zpos p)) by lia.
      rewrite !Z.pow_add_r by lia. rewrite Z.pow_1_r. reflexivity. }
    rewrite E. rewrite Z.div_div by lia. rewrite Z.div_div by lia. reflexivity.
  - cbn [iter_pos].
    assert (P : 0 < 2 ^ Zpos p) by (apply Z.pow_pos_nonneg; lia).
    assert (H2 : 0 <= shr_m (iter_pos shr_1 p r))
      by (rewrite IH by exact H; apply Z.div_pos; [exact H | exact P]).
    rewrite IH by exact H2. rewrite IH by exact H.
    assert (E : 2 ^ Zpos p~0 = 2 ^ Zpos p * 2 ^ Zpos p).
    { rewrite (Pos2Z.inj_xO p).
      replace (2 * Zpos p) with (Zpos p + Zpos p) by lia.
      apply Z.pow_add_r; lia. }
    rewrite E. rewrite Z.div_div by lia. reflexivity.
  - cbn [iter_pos]. rewrite shr_1_m by exact H. reflexivity.
Qed.

Lemma shr_record_of_loc_m (m : Z) (l : location) : shr_m (shr_record_of_loc m l) = m.
Proof. destruct l as [|[]]; reflexivity. Qed.

(** In the normal range a right shift to the format keeps a positive mantissa positive. *)
Lemma shr_fexp_positive (m : positive) (e : Z) (l : location) :
  -1022 <= e ->
  0 < shr_m (fst (shr_fexp prec emax (Zpos m) e l))
  /\ e <= snd (shr_fexp prec emax (Zpos m) e l).
Proof.
  intros He. unfold shr_fexp, shr, fexp, emin, prec, emax. cbn [Zdigits2].
  pose proof (digits2_lower m) as L.
  set (d := Zpos (digits2_pos m)) in *.
  assert (Hd : 1 <= d) by (unfold d; lia).
  replace (Z.max (d + e - 53) (3 - 1024 - 53)) with (d + e - 53) by lia.
  replace (d + e - 53 - e) with (d - 53) by lia.
  destruct (d - 53) as [|n|n] eqn:En; cbn [fst snd].
  - rewrite shr_record_of_loc_m. lia.
  - rewrite iter_shr_1_m by (rewrite shr_record_of_loc_m; lia).
    rewrite shr_record_of_loc_m. split; [|lia].
    apply Z.div_str_pos. split; [apply Z.pow_pos_nonneg; lia|].
    eapply Z.le_trans; [|exact L]. apply Z.pow_le_mono_r; lia.
  - rewrite shr_record_of_loc_m. lia.
Qed.

Lemma round_nearest_even_positive (m : Z) (l : location) :
  0 < m -> 0 < round_nearest_even m l.
Proof.
  intros H. destruct l as [|[]]; simpl; try lia. destruct (Z.even m); lia.
Qed.

Lemma binary_round_aux_nonzero (s : bool) (m : positive) (e : Z) (l : location) :
  -1022 <= e ->
  is_zero (binary_round_aux prec emax s (Zpos m) e l) = false
  /\ is_nan (binary_round_aux prec emax s (Zpos m) e l) = false.
Proof.
  intros He. unfold binary_round_aux.
  pose proof (@shr_fexp_positive m e l He) as [H1 H1e].
  destruct (shr_fexp prec emax (Zpos m) e l) as [mrs' e'] eqn:E1. cbn [fst snd] in *.
  pose proof (@round_nearest_even_positive (shr_m mrs') (loc_of_shr_record mrs') H1) as H2.
  destruct (round_nearest_even (shr_m mrs') (loc_of_shr_record mrs')) as [|m2|m2] eqn:E2; try lia.
  assert (He' : -1022 <= e') by lia.
  pose proof (@shr_fexp_positive m2 e' loc_Exact He') as [H3 _].
  destruct (shr_fexp prec emax (Zpos m2) e' loc_Exact) as [mrs'' e''] eqn:E3. cbn [fst snd] in *.
  destruct (shr_m mrs'') as [|m3|m3]; try lia.
  destruct (e'' <=? emax - prec); split; reflexivity.
Qed.

Lemma binary_normalize_nonzero (z : Z) :
  z <> 0 ->
  is_zero (binary_normalize prec emax z 0 false) = false
  /\ is_nan (binary_normalize prec emax z 0 false) = false.
Proof.
  intros Hz.
  assert (H : forall s m, is_zero (binary_round prec emax s m 0) = false
                       /\ is_nan (binary_round prec emax s m 0) = false).
  { intros s m. unfold binary_round, shl_align, fexp, emin, prec, emax.
    set (d := Zpos (digits2_pos m)).
    assert (Hd : 1 <= d) by (unfold d; lia).
    replace (Z.max (d + 0 - 53) (3 - 1024 - 53)) with (d - 53) by lia.
    replace (d - 53 - 0) with (d - 53) by lia.
    destruct (d - 53) as [|n|n] eqn:En.
    - apply binary_round_aux_nonzero. lia.
    - apply binary_round_aux_nonzero. lia.
    - apply binary_round_aux_nonzero. lia. }
  destruct z as [|m|m]; [contradiction| |]; apply H.
Qed.

End FloatOfInt.

(** ** The numeric evaluator on int abscissas and float ordinates *)

Section EvaluatorExtras.

Lemma for_each_ext (S A : Type) (f g : S -> A -> outcome S) (l : list A) :
  (forall a, In a l -> forall s, f s a = g s a) ->
  forall s, for_each l f s = for_each l g s.
Proof.
  induction l as [|a l IH]; intros H s; cbn [for_each]; [reflexivity|].
  rewrite (H a (or_introl eq_refl) s).
  destruct (g s a); cbn [bind]; try reflexivity.
  apply IH. intros b Hb. apply H. right. exact Hb.
Qed.

Lemma getitem_map_bind (A : Type) (f : A -> pyval) (l : list A) (i : nat) :
  getitem (map f l) i = (a <- getitem l i ;; Returns (f a))%py.
Proof.
  unfold getitem. rewrite nth_error_map.
  destruct (nth_error l i); reflexivity.
Qed.

Lemma weight_fold_products (z : Z) (xs : list Z) (i : nat) (js : list nat) :
  forall N D,
    fold_left (weight_step z xs i) js (N, D)
    = (N * weight_product z xs i js, D * weight_product (nth i xs 0) xs i js).
Proof.
  induction js as [|j js IH]; intros N D; cbn [fold_left weight_product].
  - f_equal; ring.
  - unfold weight_step at 2. destruct (i =? j)%nat.
    + apply IH.
    + cbn [fst snd]. rewrite IH. f_equal; ring.
Qed.

Lemma weight_products (z : Z) (xs : list Z) (i : nat) :
  weight z xs i
  = (weight_product z xs i (range (List.length xs)),
     weight_product (nth i xs 0) xs i (range (List.length xs))).
Proof.
  unfold weight. rewrite weight_fold_products. f_equal; ring.
Qed.

Lemma weight_product_zero (v : Z) (xs : list Z) (i : nat) (js : list nat) :
  weight_product v xs i js = 0
  <-> exists j, In j js /\ j <> i /\ nth j xs 0 = v.
Proof.
  induction js as [|j js IH]; cbn [weight_product].
  - split; [lia | intros [j [[] _]]].
  - destruct (Nat.eqb_spec i j) as [E|E].
    + rewrite IH. split; intros [k [Hk [Hne Hv]]]; exists k.
      * split; [right; exact Hk | auto].
      * destruct Hk as [Hk|Hk]; [congruence | auto].
    + rewrite Z.mul_eq_0, IH. split.
      * intros [H|[k [Hk [Hne Hv]]]].
        -- exists j. split; [left; reflexivity|]. split; [congruence | lia].
        -- exists k. split; [right; exact Hk | auto].
      * intros [k [[Hk|Hk] [Hne Hv]]].
        -- left. subst k. lia.
        -- right. exists k. auto.
Qed.

(** The denominators are all non-zero exactly when the abscissas are
    pairwise distinct. *)
Lemma denominator_zero (z : Z) (xs : list Z) (i : nat) :
  (i < List.length xs)%nat ->
  snd (weight z xs i) = 0 -> ~ NoDup xs.
Proof.
  intros Hi H Hnd. rewrite weight_products in H. cbn [snd] in H.
  apply weight_product_zero in H. destruct H as [j [Hj [Hne Hv]]].
  apply in_seq in Hj. apply Hne.
  apply (proj1 (NoDup_nth xs 0) Hnd); [lia | exact Hi | exact Hv].
Qed.

Lemma weight_product_bound (B v : Z) (xs : list Z) (i : nat) (js : list nat) :
  1 <= B -> (forall j, In j js -> Z.abs (v - nth j xs 0) <= B) ->
  Z.abs (weight_product v xs i js) <= B ^ Z.of_nat (List.length js).
Proof.
  intros HB. induction js as [|j js IH]; intros Hd.
  - simpl. lia.
  - cbn [weight_product List.length]. rewrite Nat2Z.inj_succ, Z.pow_succ_r by lia.
    assert (HP : 0 < B ^ Z.of_nat (List.length js)) by (apply Z.pow_pos_nonneg; lia).
    assert (IH' : Z.abs (weight_product v xs i js) <= B ^ Z.of_nat (List.length js)).
    { apply IH. intros k Hk. apply Hd. right. exact Hk. }
    destruct (i =? j)%nat.
    + nia.
    + rewrite Z.abs_mul. pose proof (Hd j (or_introl eq_refl)).
      pose proof (Z.abs_nonneg (v - nth j xs 0)).
      pose proof (Z.abs_nonneg (weight_product v xs i js)). nia.
Qed.

(** Target and abscissas in an interval whose width to the power of the
    number of samples is below the limit: every weight converts. *)
Lemma interval_convertible (lo hi z : Z) (xs : list Z) (i : nat) :
  lo < hi -> lo <= z <= hi -> Forall (fun x => lo <= x <= hi) xs ->
  (hi - lo) ^ Z.of_nat (List.length xs) < float_limit ->
  (i < List.length xs)%nat -> convertible z xs i.
Proof.
  intros Hlh Hz Hxs HB Hi.
  assert (Hn : forall j, (j < List.length xs)%nat -> lo <= nth j xs 0 <= hi).
  { intros j Hj. rewrite Forall_forall in Hxs. apply Hxs. apply nth_In. exact Hj. }
  assert (L : List.length (range (List.length xs)) = List.length xs) by apply length_seq.
  unfold convertible. rewrite weight_products. cbn [fst snd]. split.
  - eapply Z.le_lt_trans; [|exact HB]. rewrite <- L at 2.
    apply weight_product_bound; [lia|].
    intros j Hj. apply in_seq in Hj. pose proof (Hn j). lia.
  - eapply Z.le_lt_trans; [|exact HB]. rewrite <- L at 2.
    apply weight_product_bound; [lia|].
    intros j Hj. apply in_seq in Hj. pose proof (Hn j). pose proof (Hn i Hi). lia.
Qed.

(** One iteration, with the zero check on the float divisor read on the
    integer denominator. *)
Lemma sum_step_spec (z : Z) (xs : list Z) (ys : list float) (acc : float) (i : nat) :
  sum_step z xs ys acc i
  = match nth_error ys i with
    | None => Raises IndexError
    | Some y =>
      if float_limit <=? Z.abs (fst (weight z xs i)) then Raises OverflowError
      else if float_limit <=? Z.abs (snd (weight z xs i)) then Raises OverflowError
      else if snd (weight z xs i) =? 0 then Raises ZeroDivisionError
      else Returns (fadd acc (float_term z xs y i))
    end.
Proof.
  unfold sum_step, getitem. destruct (nth_error ys i) as [y|]; [|reflexivity].
  cbn [bind]. unfold float_of_int. fold float_limit.
  destruct (float_limit <=? Z.abs (fst (weight z xs i))); [reflexivity|]. cbn [bind].
  destruct (float_limit <=? Z.abs (snd (weight z xs i))); [reflexivity|]. cbn [bind].
  unfold float_truediv.
  destruct (Z.eqb_spec (snd (weight z xs i)) 0) as [E|E].
  - rewrite E. reflexivity.
  - destruct (binary_normalize_nonzero E) as [H _]. rewrite H. reflexivity.
Qed.

Lemma sum_body_sum_step (z : Z) (xs : list Z) (ys : list float) (acc : pyval) (i : nat) :
  (i < List.length xs)%nat -> is_number acc ->
  sum_body (PyInt z) (map PyInt xs) (map PyFloat ys) acc i
  = (f <- sum_step z xs ys (acc_float acc) i ;; Returns (PyFloat f))%py.
Proof.
  intros Hi Hacc. unfold sum_body, sum_step. rewrite length_map.
  rewrite (@weight_loop z xs i (range (List.length xs)) Hi (range_lt_length xs)).
  cbn [bind]. rewrite getitem_map_bind. fold (weight z xs i).
  destruct (getitem ys i) as [y| | |]; cbn [bind]; try reflexivity.
  cbn [py_mul].
  destruct (float_of_int (fst (weight z xs i))); cbn [bind]; try reflexivity.
  cbn [py_truediv].
  destruct (float_of_int (snd (weight z xs i))); cbn [bind]; try reflexivity.
  destruct (float_truediv _ _); cbn [bind]; try reflexivity.
  destruct Hacc as [E|[f E]]; subst acc; cbn [py_add acc_float].
  - rewrite float_of_int_0. reflexivity.
  - reflexivity.
Qed.

Lemma sum_loop_steps (z : Z) (xs : list Z) (ys : list float) (ks : list nat) :
  Forall (fun i => (i < List.length xs)%nat) ks ->
  forall acc, is_number acc ->
    for_each ks (sum_body (PyInt z) (map PyInt xs) (map PyFloat ys)) acc
    = match ks with
      | [] => Returns acc
      | _ :: _ =>
        (f <- for_each ks (sum_step z xs ys) (acc_float acc) ;; Returns (PyFloat f))%py
      end.
Proof.
  induction 1 as [|k ks Hk Hks IH]; intros acc Hacc; [reflexivity|].
  cbn [for_each]. rewrite (@sum_body_sum_step z xs ys acc k Hk Hacc).
  destruct (sum_step z xs ys (acc_float acc) k) as [f| | |]; cbn [bind]; try reflexivity.
  rewrite IH by (right; eexists; reflexivity).
  destruct ks; reflexivity.
Qed.

(** The evaluator on int abscissas and float ordinates is the loop of
    [sum_step] from the float zero. *)
Lemma lagrange_interpolation_steps (z : Z) (xs : list Z) (ys : list float) :
  lagrange_interpolation (PyInt z) (map PyInt xs) (map PyFloat ys)
  = match xs with
    | [] => Returns (PyInt 0)
    | _ :: _ =>
      (f <- for_each (range (List.length xs)) (sum_step z xs ys) (S754_zero false) ;;
       Returns (PyFloat f))%py
    end.
Proof.
  rewrite lagrange_interpolation_loops, length_map.
  rewrite (@sum_loop_steps z xs ys (range (List.length xs)) (range_lt_length xs)
             (PyInt 0) (or_introl eq_refl)).
  destruct xs; reflexivity.
Qed.

(** The outcomes of the loop and what causes each. *)
Lemma sum_steps_cases (z : Z) (xs : list Z) (ys : list float) (ks : list nat) :
  forall acc,
    (Forall (fun i => (i < List.length ys)%nat /\ snd (weight z xs i) <> 0) ks
     /\ for_each ks (sum_step z xs ys) acc = Returns (float_sum z xs ys ks acc))
    \/ (Exists (fun i => (List.length ys <= i)%nat) ks
        /\ for_each ks (sum_step z xs ys) acc = Raises IndexError)
    \/ (Exists (fun i => snd (weight z xs i) = 0) ks
        /\ for_each ks (sum_step z xs ys) acc = Raises ZeroDivisionError)
    \/ (Exists (fun i => ~ convertible z xs i) ks
        /\ for_each ks (sum_step z xs ys) acc = Raises OverflowError).
Proof.
  induction ks as [|k ks IH]; intros acc.
  - left. split; [constructor | reflexivity].
  - cbn [for_each]. rewrite sum_step_spec.
    destruct (nth_error ys k) as [y|] eqn:Ey.
    2:{ right. left. split; [|reflexivity].
        apply Exists_cons_hd. apply nth_error_None. exact Ey. }
    assert (Hk : (k < List.length ys)%nat).
    { apply nth_error_Some. rewrite Ey. discriminate. }
    assert (Hy : nth k ys (S754_zero false) = y).
    { apply nth_error_nth. exact Ey. }
    destruct (Z.leb_spec float_limit (Z.abs (fst (weight z xs k)))) as [H1|H1].
    { right. right. right. split; [|reflexivity].
      apply Exists_cons_hd. unfold convertible. lia. }
    destruct (Z.leb_spec float_limit (Z.abs (snd (weight z xs k)))) as [H2|H2].
    { right. right. right. split; [|reflexivity].
      apply Exists_cons_hd. unfold convertible. lia. }
    destruct (Z.eqb_spec (snd (weight z xs k)) 0) as [H3|H3].
    { right. right. left. split; [|reflexivity].
      apply Exists_cons_hd. exact H3. }
    cbn [bind].
    destruct (IH (fadd acc (float_term z xs y k))) as [[F E]|[[X E]|[[X E]|[X E]]]].
    + left. split; [constructor; [split; assumption | exact F]|].
      rewrite E. unfold float_sum. cbn [fold_left]. rewrite Hy. reflexivity.
    + right. left. split; [apply Exists_cons_tl; exact X | exact E].
    + right. right. left. split; [apply Exists_cons_tl; exact X | exact E].
    + right. right. right. split; [apply Exists_cons_tl; exact X | exact E].
Qed.

Lemma nonzero_denominators_NoDup (z : Z) (xs : list Z) :
  (forall i, (i < List.length xs)%nat -> snd (weight z xs i) <> 0) -> NoDup xs.
Proof.
  intros Hall. apply (NoDup_nth xs 0). intros i j Hi Hj Hv.
  destruct (Nat.eq_dec i j) as [E|E]; [exact E|]. exfalso.
  apply (Hall i Hi). rewrite weight_products. cbn [snd].
  apply weight_product_zero. exists j. split; [apply in_seq; lia|].
  split; [congruence | symmetry; exact Hv].
Qed.

Lemma lagrange_interpolation_nonempty (z : Z) (xs : list Z) (ys : list float) :
  xs <> [] ->
  lagrange_interpolation (PyInt z) (map PyInt xs) (map PyFloat ys)
  = (f <- for_each (range (List.length xs)) (sum_step z xs ys) (S754_zero false) ;;
     Returns (PyFloat f))%py.
Proof.
  intros H. rewrite lagrange_interpolation_steps.
  destruct xs; [contradiction | reflexivity].
Qed.

Lemma steps_return (z : Z) (xs : list Z) (ys : list float) (acc : float) :
  (forall i, (i < List.length xs)%nat -> convertible z xs i) ->
  NoDup xs -> (List.length xs <= List.length ys)%nat ->
  for_each (range (List.length xs)) (sum_step z xs ys) acc
  = Returns (float_sum z xs ys (range (List.length xs)) acc).
Proof.
  intros Hc Hnd Hlen.
  destruct (sum_steps_cases z xs ys (range (List.length xs)) acc)
    as [[_ E]|[[X _]|[[X _]|[X _]]]]; [exact E| | |]; exfalso;
    apply Exists_exists in X; destruct X as [i [Hi X]]; apply in_seq in Hi.
  - lia.
  - apply (@denominator_zero z xs i); [lia | exact X | exact Hnd].
  - apply X, Hc. lia.
Qed.

Lemma steps_raise_ZeroDivisionError (z : Z) (xs : list Z) (ys : list float) (acc : float) :
  (forall i, (i < List.length xs)%nat -> convertible z xs i) ->
  ~ NoDup xs -> (List.length xs <= List.length ys)%nat ->
  for_each (range (List.length xs)) (sum_step z xs ys) acc = Raises ZeroDivisionError.
Proof.
  intros Hc Hnd Hlen.
  destruct (sum_steps_cases z xs ys (range (List.length xs)) acc)
    as [[F _]|[[X _]|[[_ E]|[X _]]]]; [| |exact E|]; exfalso.
  - apply Hnd. apply (@nonzero_denominators_NoDup z). intros i Hi.
    rewrite Forall_forall in F. apply F. apply in_seq. lia.
  - apply Exists_exists in X. destruct X as [i [Hi X]]. apply in_seq in Hi. lia.
  - apply Exists_exists in X. destruct X as [i [Hi X]]. apply in_seq in Hi.
    apply X, Hc. lia.
Qed.

Lemma not_NoDup_nonempty (xs : list Z) : ~ NoDup xs -> xs <> [].
Proof. intros H E. apply H. rewrite E. constructor. Qed.

(** The outcomes of the evaluator on int abscissas and float ordinates, and
    what each one tells about the input: the int 0 for no sample; a float
    only if the abscissas are pairwise distinct and every one has an
    ordinate; IndexError only if ordinates are missing; ZeroDivisionError
    only if two abscissas are equal; OverflowError only if a numerator or a
    denominator is beyond the range of float.  Nothing else happens. *)
Theorem evaluator_outcomes (z : Z) (xs : list Z) (ys : list float) :
  let r := lagrange_interpolation (PyInt z) (map PyInt xs) (map PyFloat ys) in
  (r = Returns (PyInt 0) /\ xs = [])
  \/ (exists f, r = Returns (PyFloat f)
                /\ xs <> [] /\ NoDup xs /\ (List.length xs <= List.length ys)%nat)
  \/ (r = Raises IndexError /\ (List.length ys < List.length xs)%nat)
  \/ (r = Raises ZeroDivisionError /\ ~ NoDup xs)
  \/ (r = Raises OverflowError
      /\ exists i, (i < List.length xs)%nat /\ ~ convertible z xs i).
Proof.
  intros r. subst r.
  destruct xs as [|x0 xs'] eqn:Exs; [left; split; reflexivity|].
  right. rewrite <- Exs.
  assert (Hne : xs <> []) by (rewrite Exs; discriminate).
  assert (Hpos : (0 < List.length xs)%nat) by (rewrite Exs; simpl; lia).
  clear Exs. rewrite (lagrange_interpolation_nonempty z ys Hne).
  destruct (sum_steps_cases z xs ys (range (List.length xs)) (S754_zero false))
    as [[F E]|[[X E]|[[X E]|[X E]]]]; rewrite E; cbn [bind].
  - left. eexists. split; [reflexivity|]. split; [exact Hne|].
    rewrite Forall_forall in F. split.
    + apply (@nonzero_denominators_NoDup z). intros i Hi.
      apply F. apply in_seq. lia.
    + destruct (F (List.length xs - 1)%nat) as [H _]; [apply in_seq; lia | lia].
  - right. left. split; [reflexivity|].
    apply Exists_exists in X. destruct X as [i [Hi X]]. apply in_seq in Hi. lia.
  - right. right. left. split; [reflexivity|].
    apply Exists_exists in X. destruct X as [i [Hi X]]. apply in_seq in Hi.
    apply (@denominator_zero z xs i); [lia | exact X].
  - right. right. right. split; [reflexivity|].
    apply Exists_exists in X. destruct X as [i [Hi X]]. apply in_seq in Hi.
    exists i. split; [lia | exact X].
Qed.

(** Pairwise distinct abscissas, an ordinate for each, target and abscissas
    in an interval whose width to the power of the number of samples is
    below the limit of float: the evaluator returns the float sum of the
    terms, added in the order of the samples from the float zero. *)
Theorem evaluator_returns_on_interval (lo hi z : Z) (xs : list Z) (ys : list float) :
  xs <> [] -> NoDup xs -> (List.length xs <= List.length ys)%nat ->
  lo < hi -> lo <= z <= hi -> Forall (fun x => lo <= x <= hi) xs ->
  (hi - lo) ^ Z.of_nat (List.length xs) < float_limit ->
  lagrange_interpolation (PyInt z) (map PyInt xs) (map PyFloat ys)
  = Returns (PyFloat (float_sum z xs ys (range (List.length xs)) (S754_zero false))).
Proof.
  intros Hne Hnd Hlen Hlh Hz Hxs HB.
  rewrite (lagrange_interpolation_nonempty z ys Hne).
  rewrite steps_return; [reflexivity | | exact Hnd | exact Hlen].
  intros i Hi. exact (interval_convertible Hlh Hz Hxs HB Hi).
Qed.

(** Two equal abscissas, with the same bounds: the evaluator raises
    ZeroDivisionError, whatever the ordinates and the target are. *)
Theorem evaluator_duplicates_raise_on_interval
  (lo hi z : Z) (xs : list Z) (ys : list float) :
  ~ NoDup xs -> (List.length xs <= List.length ys)%nat ->
  lo < hi -> lo <= z <= hi -> Forall (fun x => lo <= x <= hi) xs ->
  (hi - lo) ^ Z.of_nat (List.length xs) < float_limit ->
  lagrange_interpolation (PyInt z) (map PyInt xs) (map PyFloat ys)
  = Raises ZeroDivisionError.
Proof.
  intros Hnd Hlen Hlh Hz Hxs HB.
  rewrite (lagrange_interpolation_nonempty z ys (not_NoDup_nonempty Hnd)).
  rewrite steps_raise_ZeroDivisionError; [reflexivity | | exact Hnd | exact Hlen].
  intros i Hi. exact (interval_convertible Hlh Hz Hxs HB Hi).
Qed.

(** Fewer ordinates than pairwise distinct abscissas, with the same bounds:
    the evaluator raises IndexError. *)
Theorem evaluator_missing_ordinates_raise_on_interval
  (lo hi z : Z) (xs : list Z) (ys : list float) :
  NoDup xs -> (List.length ys < List.length xs)%nat ->
  lo < hi -> lo <= z <= hi -> Forall (fun x => lo <= x <= hi) xs ->
  (hi - lo) ^ Z.of_nat (List.length xs) < float_limit ->
  lagrange_interpolation (PyInt z) (map PyInt xs) (map PyFloat ys)
  = Raises IndexError.
Proof.
  intros Hnd Hlen Hlh Hz Hxs HB.
  assert (Hne : xs <> []) by (intros E; rewrite E in Hlen; simpl in Hlen; lia).
  rewrite (lagrange_interpolation_nonempty z ys Hne).
  destruct (sum_steps_cases z xs ys (range (List.length xs)) (S754_zero false))
    as [[F _]|[[_ E]|[[X _]|[X _]]]]; [|rewrite E; reflexivity| |]; exfalso.
  - rewrite Forall_forall in F.
    destruct (F (List.length ys)) as [H _]; [apply in_seq; lia | lia].
  - apply Exists_exists in X. destruct X as [i [Hi X]]. apply in_seq in Hi.
    apply (@denominator_zero z xs i); [lia | exact X | exact Hnd].
  - apply Exists_exists in X. destruct X as [i [Hi X]]. apply in_seq in Hi.
    apply X. apply (interval_convertible Hlh Hz Hxs HB). lia.
Qed.

(** Ordinates beyond the number of abscissas are never read, whatever the
    values are. *)
Theorem evaluator_ignores_extra_ordinates (x : pyval) (x_data y_data more : list pyval) :
  (List.length x_data <= List.length y_data)%nat ->
  lagrange_interpolation x x_data (y_data ++ more)
  = lagrange_interpolation x x_data y_data.
Proof.
  intros H. rewrite !lagrange_interpolation_loops. apply for_each_ext.
  intros i Hi acc. apply in_seq in Hi. unfold sum_body.
  destruct (for_each _ _ _) as [[nu de]| | |]; cbn [bind]; try reflexivity.
  unfold getitem. rewrite nth_error_app1 by lia. reflexivity.
Qed.

(** *** At a sample abscissa *)

Lemma same_number_refl (a : float) : same_number a a.
Proof. left. reflexivity. Qed.

Lemma same_number_trans (a b c : float) :
  same_number a b -> same_number b c -> same_number a c.
Proof.
  intros [E|[Za Zb]] [E'|[Zb' Zc]]; subst.
  - left. reflexivity.
  - right. auto.
  - right. auto.
  - right. auto.
Qed.

Lemma same_number_zero (a b : float) :
  same_number a b -> is_zero b = true -> is_zero a = true.
Proof. intros [E|[Za _]] H; [subst; exact H | exact Za]. Qed.

Lemma fadd_zero_r (a t : float) : is_zero t = true -> same_number (fadd a t) a.
Proof.
  destruct t as [s'| | |]; try discriminate. intros _.
  destruct a as [s| s | |s m e]; [|left; reflexivity ..].
  right. destruct s, s'; split; reflexivity.
Qed.

Lemma fadd_zero_l (a t : float) : is_zero a = true -> same_number (fadd a t) t.
Proof.
  destruct a as [s| | |]; try discriminate. intros _.
  destruct t as [s'| s' | |s' m e]; [|left; reflexivity ..].
  right. destruct s, s'; split; reflexivity.
Qed.

Lemma fmul_zero_r (y : float) (s : bool) :
  is_finite y = true -> is_zero (fmul y (S754_zero s)) = true.
Proof. destruct y; try discriminate; reflexivity. Qed.

Lemma fdiv_zero_l (a g : float) :
  is_zero a = true -> is_zero g = false -> is_nan g = false ->
  is_zero (fdiv a g) = true.
Proof.
  destruct a; try discriminate. destruct g; try discriminate; reflexivity.
Qed.

(** At the abscissa of sample [k] the numerators of the other samples are
    zero, so their terms are float zeros. *)
Lemma other_term_zero (xs : list Z) (y : float) (i k : nat) :
  (i < List.length xs)%nat -> (k < List.length xs)%nat -> i <> k ->
  snd (weight (nth k xs 0) xs i) <> 0 -> is_finite y = true ->
  is_zero (float_term (nth k xs 0) xs y i) = true.
Proof.
  intros Hi Hk Hne HD Hy. unfold float_term.
  destruct (binary_normalize_nonzero HD) as [Hz Hn].
  assert (E : fst (weight (nth k xs 0) xs i) = 0).
  { rewrite weight_products. cbn [fst]. apply weight_product_zero.
    exists k. split; [apply in_seq; lia|]. split; [congruence | reflexivity]. }
  rewrite E. apply fdiv_zero_l; [|exact Hz | exact Hn].
  change (to_float 0) with (S754_zero false). apply fmul_zero_r. exact Hy.
Qed.

Lemma float_sum_at_sample (xs : list Z) (ys : list float) (k : nat) (ks : list nat) :
  NoDup ks ->
  (forall i, In i ks -> i <> k ->
             is_zero (float_term (nth k xs 0) xs (nth i ys (S754_zero false)) i) = true) ->
  forall acc,
    (~ In k ks -> same_number (float_sum (nth k xs 0) xs ys ks acc) acc)
    /\ (In k ks -> is_zero acc = true ->
        same_number (float_sum (nth k xs 0) xs ys ks acc)
                    (float_term (nth k xs 0) xs (nth k ys (S754_zero false)) k)).
Proof.
  induction 1 as [|i ks Hi Hnd IH]; intros Hz acc.
  - split; [intros _; apply same_number_refl | intros []].
  - assert (Hz' : forall j, In j ks -> j <> k ->
              is_zero (float_term (nth k xs 0) xs (nth j ys (S754_zero false)) j) = true).
    { intros j Hj. apply Hz. right. exact Hj. }
    specialize (IH Hz').
    unfold float_sum. cbn [fold_left]. fold (float_sum (nth k xs 0) xs ys ks).
    set (t := float_term (nth k xs 0) xs (nth i ys (S754_zero false)) i).
    destruct (IH (fadd acc t)) as [IH1 IH2]. split.
    + intros Hk.
      assert (Hik : i <> k) by (intros E; apply Hk; left; exact E).
      eapply same_number_trans; [apply IH1; intros H; apply Hk; right; exact H|].
      apply fadd_zero_r. apply Hz; [left; reflexivity | exact Hik].
    + intros Hk Hacc. destruct (Nat.eq_dec i k) as [E|E].
      * subst i. eapply same_number_trans; [apply IH1; exact Hi|].
        apply fadd_zero_l. exact Hacc.
      * apply IH2.
        -- destruct Hk as [Hk|Hk]; [contradiction | exact Hk].
        -- apply (@same_number_zero _ acc); [|exact Hacc].
           apply fadd_zero_r. apply Hz; [left; reflexivity | exact E].
Qed.

(** At the abscissa of sample [k], with pairwise distinct abscissas, finite
    ordinates and the same bounds, every other term is a float zero: the
    evaluator returns the number [y_k * a / a] computed in floats, where
    [a] is the float of the denominator of weight [k]. *)
Theorem evaluator_at_sample (lo hi : Z) (xs : list Z) (ys : list float) (k : nat) :
  NoDup xs -> (List.length xs <= List.length ys)%nat -> (k < List.length xs)%nat ->
  lo < hi -> Forall (fun x => lo <= x <= hi) xs ->
  (hi - lo) ^ Z.of_nat (List.length xs) < float_limit ->
  Forall (fun y => is_finite y = true) ys ->
  exists f,
    lagrange_interpolation (PyInt (nth k xs 0)) (map PyInt xs) (map PyFloat ys)
    = Returns (PyFloat f)
    /\ same_number f
         (fdiv (fmul (nth k ys (S754_zero false))
                     (to_float (snd (weight (nth k xs 0) xs k))))
               (to_float (snd (weight (nth k xs 0) xs k)))).
Proof.
  intros Hnd Hlen Hk Hlh Hxs HB Hys.
  assert (Hne : xs <> []) by (intros E; rewrite E in Hk; simpl in Hk; lia).
  assert (Hz : lo <= nth k xs 0 <= hi).
  { rewrite Forall_forall in Hxs. apply Hxs. apply nth_In. exact Hk. }
  rewrite (lagrange_interpolation_nonempty (nth k xs 0) ys Hne).
  rewrite steps_return; [| | exact Hnd | exact Hlen].
  2:{ intros i Hi. exact (interval_convertible Hlh Hz Hxs HB Hi). }
  cbn [bind]. eexists. split; [reflexivity|].
  assert (EN : fst (weight (nth k xs 0) xs k) = snd (weight (nth k xs 0) xs k)).
  { rewrite weight_products. reflexivity. }
  rewrite <- EN at 1.
  change (fdiv (fmul (nth k ys (S754_zero false))
                     (to_float (fst (weight (nth k xs 0) xs k))))
               (to_float (snd (weight (nth k xs 0) xs k))))
    with (float_term (nth k xs 0) xs (nth k ys (S754_zero false)) k).
  apply float_sum_at_sample.
  - apply seq_NoDup.
  - intros i Hi Hik. apply in_seq in Hi. apply other_term_zero; [lia | exact Hk | exact Hik | |].
    + intros E. apply (@denominator_zero (nth k xs 0) xs i); [lia | exact E | exact Hnd].
    + rewrite Forall_forall in Hys. apply Hys. apply nth_In. lia.
  - apply in_seq. lia.
  - reflexivity.
Qed.

End EvaluatorExtras.

(** A target between two samples. *)
Lemma evaluator_returns_on_interval_witness :
  lagrange_interpolation (PyInt 1) (map PyInt [0; 2])
                         (map PyFloat [to_float 1; to_float 3])
  = Returns (PyFloat (float_sum 1 [0; 2] [to_float 1; to_float 3]
                                (range 2) (S754_zero false))).
Proof.
  apply (@evaluator_returns_on_interval 0 2 1 [0; 2] [to_float 1; to_float 3]).
  - discriminate.
  - repeat constructor; simpl; intros H;
      repeat (destruct H as [H|H]; [discriminate|]); exact H.
  - simpl. lia.
  - lia.
  - lia.
  - repeat constructor; lia.
  - vm_compute. reflexivity.
Defined.

(** The abscissa 2 given twice. *)
Lemma evaluator_duplicates_raise_on_interval_witness :
  lagrange_interpolation (PyInt 1) (map PyInt [2; 0; 2])
                         (map PyFloat [to_float 1; to_float 3; to_float 1])
  = Raises ZeroDivisionError.
Proof.
  apply (@evaluator_duplicates_raise_on_interval 0 2 1 [2; 0; 2]
           [to_float 1; to_float 3; to_float 1]).
  - intros H. inversion H as [|? ? Hnotin _]. apply Hnotin. right. left. reflexivity.
  - simpl. lia.
  - lia.
  - lia.
  - repeat constructor; lia.
  - vm_compute. reflexivity.
Defined.

(** Two abscissas and one ordinate. *)
Lemma evaluator_missing_ordinates_raise_on_interval_witness :
  lagrange_interpolation (PyInt 1) (map PyInt [0; 2]) (map PyFloat [to_float 1])
  = Raises IndexError.
Proof.
  apply (@evaluator_missing_ordinates_raise_on_interval 0 2 1 [0; 2] [to_float 1]).
  - repeat constructor; simpl; intros H;
      repeat (destruct H as [H|H]; [discriminate|]); exact H.
  - simpl. lia.
  - lia.
  - lia.
  - repeat constructor; lia.
  - vm_compute. reflexivity.
Defined.

(** A third ordinate, of another type, for two abscissas. *)
Lemma evaluator_ignores_extra_ordinates_witness :
  lagrange_interpolation (PyInt 1) [PyInt 0; PyInt 2]
                         ([PyFloat (to_float 1); PyFloat (to_float 3)] ++ [Sym NonFinite])
  = lagrange_interpolation (PyInt 1) [PyInt 0; PyInt 2]
                           [PyFloat (to_float 1); PyFloat (to_float 3)].
Proof.
  apply (@evaluator_ignores_extra_ordinates (PyInt 1) [PyInt 0; PyInt 2]
           [PyFloat (to_float 1); PyFloat (to_float 3)] [Sym NonFinite]).
  simpl. lia.
Defined.

(** At the second of two samples. *)
Lemma evaluator_at_sample_witness :
  exists f,
    lagrange_interpolation (PyInt (nth 1 [0; 2] 0)) (map PyInt [0; 2])
                           (map PyFloat [to_float 1; to_float 3])
    = Returns (PyFloat f)
    /\ same_number f
         (fdiv (fmul (nth 1 [to_float 1; to_float 3] (S754_zero false))
                     (to_float (snd (weight (nth 1 [0; 2] 0) [0; 2] 1))))
               (to_float (snd (weight (nth 1 [0; 2] 0) [0; 2] 1)))).
Proof.
  apply (@evaluator_at_sample 0 2 [0; 2] [to_float 1; to_float 3] 1).
  - repeat constructor; simpl; intros H;
      repeat (destruct H as [H|H]; [discriminate|]); exact H.
  - simpl. lia.
  - simpl. lia.
  - lia.
  - repeat constructor; lia.
  - vm_compute. reflexivity.
  - repeat constructor.
Defined.

(** ** The series object and the rate message *)

Section SeriesExtras.

Variable nonascii_decimal : N -> option digit.

Lemma date_values_of_cases (ds : list str) :
  (date_values_of nonascii_decimal ds = Raises ValueError
   /\ Exists (fun d => date_to_num nonascii_decimal d = Raises ValueError) ds)
  \/ exists days,
       date_values_of nonascii_decimal ds = Returns (map PyInt days)
       /\ Forall2 (fun d v => date_to_num nonascii_decimal d = Returns (PyInt v)) ds days
       /\ Forall (fun v => -730850 <= v <= 2928783) days.
Proof.
  induction ds as [|d ds IH]; cbn [date_values_of].
  - right. exists []. repeat split; constructor.
  - destruct (date_to_num_cases nonascii_decimal d) as [E|[z [E Hz]]].
    + left. rewrite E. split; [reflexivity | apply Exists_cons_hd; exact E].
    + destruct IH as [[E' X]|[days [E' [F2 F]]]].
      * left. rewrite E, E'. split; [reflexivity | apply Exists_cons_tl; exact X].
      * right. exists (z :: days). rewrite E, E'.
        split; [reflexivity|]. split; constructor; assumption.
Qed.

(** The constructor keeps both lists as they are given, of whatever lengths
    and values, next to the day numbers of the dates; it compares no
    lengths, and its only failure is the ValueError of a text that is not a
    date. *)
Theorem ForexData_init_outcomes (ds : list str) (rates : list pyval) :
  (ForexData_init nonascii_decimal ds rates = Raises ValueError
   /\ Exists (fun d => date_to_num nonascii_decimal d = Raises ValueError) ds)
  \/ exists days,
       ForexData_init nonascii_decimal ds rates
       = Returns {| dates := ds; exchange_rates := rates; date_values := map PyInt days |}
       /\ Forall2 (fun d v => date_to_num nonascii_decimal d = Returns (PyInt v)) ds days.
Proof.
  unfold ForexData_init.
  destruct (date_values_of_cases ds) as [[E X]|[days [E [F2 _]]]]; rewrite E.
  - left. split; [reflexivity | exact X].
  - right. exists days. split; [reflexivity | exact F2].
Qed.

Lemma pow_day_range (n : nat) :
  (n <= 46)%nat -> (2928783 - -730850) ^ Z.of_nat n < float_limit.
Proof.
  intros H. eapply Z.le_lt_trans; [apply (Z.pow_le_mono_r _ _ 46); lia|].
  vm_compute. reflexivity.
Qed.


(** The evaluator on at most 46 day numbers of dates, at the day number of
    a date. *)
Lemma series_evaluation (z : Z) (days : list Z) (ys : list float) :
  -730850 <= z <= 2928783 -> Forall (fun v => -730850 <= v <= 2928783) days ->
  (List.length days <= 46)%nat -> (List.length days <= List.length ys)%nat ->
  (days = []
   /\ lagrange_interpolation (PyInt z) (map PyInt days) (map PyFloat ys)
      = Returns (PyInt 0))
  \/ (NoDup days
      /\ exists f, lagrange_interpolation (PyInt z) (map PyInt days) (map PyFloat ys)
                   = Returns (PyFloat f))
  \/ (~ NoDup days
      /\ lagrange_interpolation (PyInt z) (map PyInt days) (map PyFloat ys)
         = Raises ZeroDivisionError).
Proof.
  intros Hz Hd H46 Hlen.
  destruct days as [|d0 days'] eqn:Ed; [left; split; reflexivity|].
  right. rewrite <- Ed in *.
  assert (Hne : days <> []) by (rewrite Ed; discriminate).
  clear Ed.
  assert (Hc : forall i, (i < List.length days)%nat -> convertible z days i).
  { intros i Hi.
    apply (@interval_convertible (-730850) 2928783 z days i);
      [lia | exact Hz | exact Hd | apply pow_day_range; exact H46 | exact Hi]. }
  rewrite (lagrange_interpolation_nonempty z ys Hne).
  destruct (sum_steps_cases z days ys (range (List.length days)) (S754_zero false))
    as [[F E]|[[X E]|[[X E]|[X E]]]]; rewrite E; cbn [bind].
  - left. split; [|eexists; reflexivity].
    apply (@nonzero_denominators_NoDup z). intros i Hi.
    rewrite Forall_forall in F. apply F. apply in_seq. lia.
  - exfalso. apply Exists_exists in X. destruct X as [i [Hi X]].
    apply in_seq in Hi. lia.
  - right. split; [|reflexivity].
    apply Exists_exists in X. destruct X as [i [Hi X]]. apply in_seq in Hi.
    apply (@denominator_zero z days i); [lia | exact X].
  - exfalso. apply Exists_exists in X. destruct X as [i [Hi X]].
    apply in_seq in Hi. apply X, Hc. lia.
Qed.

Lemma messages_differ (s v : str) :
  of_string "Interpolated exchange rate for " ++ s ++ of_string ": " ++ v
  <> invalid_date_message.
Proof.
  intros H. apply (f_equal (fun l => nth 2 l 0%N)) in H.
  vm_compute in H. discriminate.
Qed.

(** The object built from dates that all parse. *)
Lemma series_object (ds : list str) (rates : list pyval) (fd : ForexData) :
  ForexData_init nonascii_decimal ds rates = Returns fd ->
  exists days,
    fd = {| dates := ds; exchange_rates := rates; date_values := map PyInt days |}
    /\ List.length days = List.length ds
    /\ Forall (fun v => -730850 <= v <= 2928783) days.
Proof.
  intros Hinit. unfold ForexData_init in Hinit.
  destruct (date_values_of_cases ds) as [[E _]|[days [E [F2 F]]]];
    rewrite E in Hinit; cbn [bind] in Hinit; [discriminate|].
  exists days. split; [inversion Hinit; reflexivity|].
  split; [symmetry; eapply Forall2_length; exact F2 | exact F].
Qed.


(** On such a series the invalid-date message is returned exactly for the
    texts that [date_to_num] rejects: no date gets it, and no failure of
    the evaluation is reported as an invalid date. *)
Theorem invalid_date_message_iff
  (ds : list str) (ys : list float) (fd : ForexData) (s : str) :
  ForexData_init nonascii_decimal ds (map PyFloat ys) = Returns fd ->
  (List.length ds <= 46)%nat -> (List.length ds <= List.length ys)%nat ->
  interpolate_exchange_rate nonascii_decimal fd s = Returns invalid_date_message
  <-> date_to_num nonascii_decimal s = Raises ValueError.
Proof.
  intros Hinit H46 Hlen.
  destruct (@series_object ds (map PyFloat ys) fd Hinit) as [days [Efd [Ld F]]]. subst fd.
  unfold interpolate_exchange_rate. cbn [date_values exchange_rates].
  destruct (date_to_num_cases nonascii_decimal s) as [Es|[z [Es Hz]]]; rewrite Es.
  - split; intros _; reflexivity.
  - cbn [bind].
    destruct (@series_evaluation z days ys Hz F) as [[_ El]|[[_ [f El]]|[_ El]]];
      [lia | lia | | |]; rewrite El; cbn [bind format_value try_except_ValueError];
      try rewrite float_of_int_0; cbn [bind try_except_ValueError];
      (split; intros H; [|discriminate H]).
    + exfalso. apply (@messages_differ s (format_4f (S754_zero false))).
      exact (f_equal (fun o => match o with Returns m => m | _ => [] end) H).
    + exfalso. apply (@messages_differ s (format_4f f)).
      exact (f_equal (fun o => match o with Returns m => m | _ => [] end) H).
    + discriminate H.
Qed.

End SeriesExtras.


(** The same series, asked for a text that is not a date. *)
Lemma invalid_date_message_iff_witness :
  let fd := {| dates := map of_string ["2002-01-01"; "2002-02-01"]%string;
               exchange_rates := map PyFloat [to_float 1; to_float 3];
               date_values := map PyInt [0; 31] |} in
  interpolate_exchange_rate (fun _ => None) fd (of_string "2002-02-30")
  = Returns invalid_date_message
  <-> date_to_num (fun _ => None) (of_string "2002-02-30") = Raises ValueError.
Proof.
  intros fd.
  apply (@invalid_date_message_iff (fun _ => None)
           (map of_string ["2002-01-01"; "2002-02-01"]%string)
           [to_float 1; to_float 3] fd (of_string "2002-02-30")).
  - vm_compute. reflexivity.
  - simpl. lia.
  - simpl. lia.
Defined.

(** ** The pipeline of the Lagrange tab *)

Section PipelineExtras.

Local Open Scope Qc_scope.

(** [interpolate_lagrange] reads the abscissa first, outside any handler:
    an exception of [float] escapes before a point is read.  With a valid
    abscissa, a frame that does not parse after frames that parse, or no
    frame at all, makes it return without computing a polynomial. *)
Theorem interpolate_lagrange_stops_early
  (v : float) (points : list point) (bad : frame) (rest : list frame) :
  frame_outcome bad = Raises ValueError ->
  interpolate_lagrange (Returns v) (map parsed points ++ bad :: rest) = Returns None
  /\ interpolate_lagrange (Returns v) [] = Returns None
  /\ forall e, interpolate_lagrange (Raises e) (map parsed points ++ bad :: rest)
               = Raises e.
Proof.
  intros Hbad. split; [|split; [reflexivity | intros e; reflexivity]].
  unfold interpolate_lagrange, get_points. cbn [bind].
  rewrite (@get_points_from_app (map parsed points) (bad :: rest) [] points
             (get_points_from_parsed points [])).
  cbn [get_points_from]. unfold frame_outcome in Hbad. rewrite Hbad. reflexivity.
Qed.

Lemma interpolate_lagrange_samples (q : poly) (xs : list Qc) (v : float) :
  (2 <= List.length xs)%nat -> NoDup xs -> (List.length q <= List.length xs)%nat ->
  interpolate_lagrange (Returns v) (map parsed (samples q xs))
  = (result <- subs_float (Poly (normalize q)) v ;;
     Returns (Some (Poly (normalize q), result)))%py.
Proof.
  intros Hn Hnd Hq.
  assert (C : compute_lagrange_polynomial (samples q xs) = Returns (Poly (normalize q))).
  { destruct (compute_lagrange_polynomial_interpolates (samples q xs))
      as [S [E [LS HS]]].
    - unfold samples. rewrite length_map. exact Hn.
    - rewrite samples_abscissas. exact Hnd.
    - rewrite E. f_equal. f_equal.
      exact (samples_interpolant q S Hnd Hq LS HS). }
  unfold interpolate_lagrange, get_points. cbn [bind].
  rewrite get_points_from_parsed. cbn [app bind].
  destruct xs as [|x0 xs']; [simpl in Hn; lia|].
  unfold samples in *. cbn [map] in *. rewrite C. reflexivity.
Qed.

(** Two or more points of pairwise distinct abscissas that all have the
    ordinate [c]: the pipeline returns the rational constant [c], as the
    polynomial and as the value.  (A single point gives a float.)  Points
    with the ordinate equal to the abscissa: the pipeline returns the
    polynomial x, and as its value the sympy Float of the float that was
    entered: the float itself, the zero without its sign, a non-finite
    value for nan and the infinities. *)
Theorem interpolate_lagrange_constant_and_identity (xs : list Qc) (c : Qc) (v : float) :
  (2 <= List.length xs)%nat -> NoDup xs ->
  interpolate_lagrange (Returns v) (map parsed (samples [c] xs))
  = Returns (Some (Poly (normalize [c]), Poly (normalize [c])))
  /\ interpolate_lagrange (Returns v) (map parsed (samples [Q2Qc 0; Q2Qc 1] xs))
     = Returns (Some (Poly [Q2Qc 0; Q2Qc 1], sympify_float v)).
Proof.
  intros Hn Hnd. split.
  - rewrite interpolate_lagrange_samples by (simpl; lia || assumption).
    unfold subs_float. rewrite normalize_idempotent.
    pose proof (length_normalize [c]) as L.
    destruct (normalize [c]) as [|a [|b r]]; [reflexivity | reflexivity|].
    simpl in L. lia.
  - rewrite interpolate_lagrange_samples by (simpl; lia || assumption).
    assert (E : normalize [Q2Qc 0; Q2Qc 1] = [Q2Qc 0; Q2Qc 1]) by reflexivity.
    rewrite E. unfold subs_float. rewrite E. reflexivity.
Qed.

End PipelineExtras.

Lemma interpolate_lagrange_stops_early_witness :
  interpolate_lagrange (Returns (to_float 2))
    (map parsed [(Q2Qc 1, Q2Qc 2)]
     ++ Build_frame (Returns (Q2Qc 3)) (Raises ValueError) :: [])
  = Returns None
  /\ interpolate_lagrange (Returns (to_float 2)) [] = Returns None
  /\ forall e, interpolate_lagrange (Raises e)
                 (map parsed [(Q2Qc 1, Q2Qc 2)]
                  ++ Build_frame (Returns (Q2Qc 3)) (Raises ValueError) :: [])
               = Raises e.
Proof.
  apply (@interpolate_lagrange_stops_early (to_float 2) [(Q2Qc 1, Q2Qc 2)]
           (Build_frame (Returns (Q2Qc 3)) (Raises ValueError)) []).
  reflexivity.
Defined.

Lemma interpolate_lagrange_constant_and_identity_witness :
  interpolate_lagrange (Returns (to_float 2))
    (map parsed (samples [Q2Qc (1 # 3)] [Q2Qc 0; Q2Qc 1]))
  = Returns (Some (Poly (normalize [Q2Qc (1 # 3)]), Poly (normalize [Q2Qc (1 # 3)])))
  /\ interpolate_lagrange (Returns (to_float 2))
       (map parsed (samples [Q2Qc 0; Q2Qc 1] [Q2Qc 0; Q2Qc 1]))
     = Returns (Some (Poly [Q2Qc 0; Q2Qc 1], sympify_float (to_float 2))).
Proof.
  apply (@interpolate_lagrange_constant_and_identity [Q2Qc 0; Q2Qc 1]
           (Q2Qc (1 # 3)) (to_float 2)).
  - simpl. lia.
  - repeat constructor; simpl; intros H;
      repeat (destruct H as [H|H];
              [apply (f_equal this) in H; vm_compute in H; discriminate|]);
      exact H.
Defined.
